(** * Data_CLEANSING_TP.py: the cleaning and analysis pipeline, embedded in Rocq

    The script is a straight-line PySpark program: it projects a product table
    onto [columns_to_keep], casts [quantity] to an integer, fills absent
    values, drops duplicate rows, scans twelve numeric columns for outliers
    with the interquartile-range rule, and then derives [main_category],
    [nutrition_score] and per-category averages.

    A DataFrame is a schema (column names with their types) and a list of rows;
    a row is a list of cells in schema order and a cell is [None] for SQL NULL.
    Every DataFrame operation the script calls is written out as a function on
    that representation, with the engine's behaviour in its default
    (non-ANSI) mode; an operation that raises returns [Err].

    A [DoubleType] value is the rational ([Q]) it denotes, and an operation on
    doubles is the exact operation followed by the engine's rounding to the
    nearest double ([round]); infinities and NaN are not represented.  The
    engine's string parsers, its printer, its rounding and its quantile sketch
    are not part of the script: they are fields of an [Engine] record, with
    the laws of rounding and of the sketch that the theorems use, and every
    theorem holds for all engines unless it names a further property of the
    engine it relies on.

    Column names are compared exactly, as Python's [in] does on line 60.  The
    engine resolves names without regard to case, which makes no difference
    where the script resolves a name: every name it resolves is one of its
    own literals, all in lower case; on line 60 the names it selects are
    names of the input as they stand; and after line 60 every frame carries
    only names of [columns_to_keep].  The operations are meant for those
    uses, not for names that differ from a column's only in case. *)

From Stdlib Require Import List String Ascii ZArith QArith Qround Bool Lia Lqa.
From Stdlib Require Import DecimalString.
Import ListNotations.

Set Implicit Arguments.

(** ** Values, rows and frames *)

Inductive DataType : Type :=
| IntegerType
| LongType
| DoubleType
| StringType.

Inductive Value : Type :=
| VInt (z : Z)
| VLong (z : Z)
| VDouble (q : Q)
| VStr (s : string).

(** [None] is the absent marker (SQL NULL). *)
Definition Cell : Type := option Value.
Definition Row : Type := list Cell.
Definition StructField : Type := (string * DataType)%type.
Definition Schema : Type := list StructField.

Record DataFrame : Type := mkDataFrame {
  schema : Schema;
  rows : list Row
}.

(** ** Errors *)

Inductive Error : Type :=
| AnalysisException (column : string)        (* a column name that does not resolve *)
| IllegalArgumentException (column : string) (* a quantile asked of a non-numeric column *)
| IndexError.                                 (* Python list index out of range *)

Inductive result (A : Type) : Type :=
| Ok (a : A)
| Err (e : Error).

Arguments Ok {A} a.
Arguments Err {A} e.

Definition bind {A B : Type} (m : result A) (k : A -> result B) : result B :=
  match m with
  | Ok a => k a
  | Err e => Err e
  end.

Declare Scope result_scope.
Delimit Scope result_scope with result.
Notation "x <- m ;; k" := (bind m (fun x => k))
  (at level 61, m at next level, right associativity) : result_scope.
Open Scope result_scope.

Fixpoint mapM {A B : Type} (f : A -> result B) (l : list A) : result (list B) :=
  match l with
  | [] => Ok []
  | a :: l' => b <- f a ;; bs <- mapM f l' ;; Ok (b :: bs)
  end.

(** ** The engine's own routines

    [string_to_int] is the parser behind [cast("int")] on a string (the
    integer the string denotes, before the 32-bit range check),
    [string_to_double] the one behind the implicit cast of a string operand of
    an arithmetic or comparison operator, [value_to_string] the implicit cast
    to string, and [quantile sample p err] the element of the non-empty
    [sample] that the quantile sketch returns for probability [p] with
    relative error [err].

    [round] maps a rational to the nearest double, so the doubles are the
    rationals it leaves alone.  It respects equality of rationals, is
    monotone, rounds a double to itself, and 0 is a double.  On a sample of
    doubles the sketch returns a double, and for probabilities between 0 and
    1 its estimates do not decrease when the probability grows. *)

Record Engine : Type := mkEngine {
  string_to_int : string -> option Z;
  string_to_double : string -> option Q;
  value_to_string : Value -> string;
  quantile : list Q -> Q -> Q -> Q;
  round : Q -> Q;
  round_compat : forall x y : Q, (x == y)%Q -> (round x == round y)%Q;
  round_monotone : forall x y : Q, (x <= y)%Q -> (round x <= round y)%Q;
  round_zero : (round 0 == 0)%Q;
  round_idempotent : forall x : Q, (round (round x) == round x)%Q;
  quantile_is_double :
    forall sample p err,
      (forall x, In x sample -> (round x == x)%Q) ->
      (round (quantile sample p err) == quantile sample p err)%Q;
  quantile_monotone :
    forall sample p p' err,
      (0 <= p)%Q -> (p <= p')%Q -> (p' <= 1)%Q ->
      (quantile sample p err <= quantile sample p' err)%Q
}.

(** Arithmetic on doubles: the exact result, rounded. *)
Definition double_add (E : Engine) (x y : Q) : Q := round E (x + y).
Definition double_sub (E : Engine) (x y : Q) : Q := round E (x - y).
Definition double_mul (E : Engine) (x y : Q) : Q := round E (x * y).
Definition double_div (E : Engine) (x y : Q) : Q := round E (x / y).

(** ** Equality of values, cells and rows (NULL equals NULL, as in grouping) *)

Definition value_eqb (a b : Value) : bool :=
  match a, b with
  | VInt x, VInt y => Z.eqb x y
  | VLong x, VLong y => Z.eqb x y
  | VDouble x, VDouble y => Qeq_bool x y
  | VStr x, VStr y => String.eqb x y
  | _, _ => false
  end.

Definition cell_eqb (a b : Cell) : bool :=
  match a, b with
  | None, None => true
  | Some x, Some y => value_eqb x y
  | _, _ => false
  end.

Fixpoint row_eqb (r1 r2 : Row) : bool :=
  match r1, r2 with
  | [], [] => true
  | c1 :: r1', c2 :: r2' => cell_eqb c1 c2 && row_eqb r1' r2'
  | _, _ => false
  end.

(** ** Column lookup *)

Definition columns (df : DataFrame) : list string := map fst (schema df).

Definition mem (name : string) (names : list string) : bool :=
  existsb (String.eqb name) names.

(** Python's [name in df.columns]. *)
Definition has_column (df : DataFrame) (name : string) : bool :=
  mem name (columns df).

Fixpoint field_type (name : string) (sch : Schema) : option DataType :=
  match sch with
  | [] => None
  | f :: sch' => if String.eqb name (fst f) then Some (snd f) else field_type name sch'
  end.

(** The cell of [row] in column [name]; absent when the name does not resolve. *)
Fixpoint cell_of (sch : Schema) (row : Row) (name : string) : Cell :=
  match sch, row with
  | f :: sch', c :: row' => if String.eqb name (fst f) then c else cell_of sch' row' name
  | _, _ => None
  end.

(** The field a column name stands for; a name that is no column raises.
    (Names are compared exactly: see the head of the file.) *)
Definition resolve (df : DataFrame) (name : string) : result StructField :=
  match field_type name (schema df) with
  | Some ty => Ok (name, ty)
  | None => Err (AnalysisException name)
  end.

(** ** DataFrame operations used by the script *)

(** [df.select(names)]. *)
Definition select (names : list string) (df : DataFrame) : result DataFrame :=
  fields <- mapM (resolve df) names ;;
  Ok {| schema := fields;
        rows := map (fun r => map (cell_of (schema df) r) names) (rows df) |}.

(** [df.withColumn(name, e)]: a column of that name is replaced where it
    stands, otherwise the new column is appended.  (The script only sets
    [quantity], [main_category] and [nutrition_score], on frames whose
    names are in lower case.) *)
Fixpoint set_field (name : string) (ty : DataType) (sch : Schema) : Schema :=
  match sch with
  | [] => [(name, ty)]
  | f :: sch' =>
      if String.eqb name (fst f) then (name, ty) :: sch'
      else f :: set_field name ty sch'
  end.

Fixpoint set_cell (name : string) (v : Cell) (sch : Schema) (row : Row) : Row :=
  match sch, row with
  | [], _ => row ++ [v]
  | f :: sch', c :: row' =>
      if String.eqb name (fst f) then v :: row'
      else c :: set_cell name v sch' row'
  | _ :: _, [] => []
  end.

Definition withColumn (name : string) (ty : DataType) (e : Row -> Cell)
    (df : DataFrame) : DataFrame :=
  {| schema := set_field name ty (schema df);
     rows := map (fun r => set_cell name (e r) (schema df) r) (rows df) |}.

(** *** cast("int") *)

Definition wrap (bits : Z) (z : Z) : Z :=
  (z + 2 ^ (bits - 1)) mod 2 ^ bits - 2 ^ (bits - 1).

Definition saturate (bits : Z) (z : Z) : Z :=
  Z.max (- 2 ^ (bits - 1)) (Z.min (2 ^ (bits - 1) - 1) z).

Definition truncate (q : Q) : Z := Z.quot (Qnum q) (Zpos (Qden q)).

Definition fits_int (z : Z) : bool :=
  ((- 2 ^ 31 <=? z) && (z <=? 2 ^ 31 - 1))%Z.

(** A long is narrowed by wrap-around, a double is truncated towards zero and
    saturated, a string that does not parse, or whose integer does not fit
    32 bits, becomes NULL. *)
Definition cast_int (E : Engine) (c : Cell) : Cell :=
  match c with
  | None => None
  | Some (VInt z) => Some (VInt z)
  | Some (VLong z) => Some (VInt (wrap 32 z))
  | Some (VDouble q) => Some (VInt (saturate 32 (truncate q)))
  | Some (VStr s) =>
      match string_to_int E s with
      | Some z => if fits_int z then Some (VInt z) else None
      | None => None
      end
  end.

(** *** na.fill *)

Inductive FillValue : Type :=
| FillNumber (z : Z)
| FillString (s : string).

(** The replacement for a NULL of a column of type [ty]; [None] when the type
    of the column does not match the kind of the fill value, in which case the
    column is left alone. *)
Definition fill_for (v : FillValue) (ty : DataType) : option Value :=
  match v, ty with
  | FillNumber z, IntegerType => Some (VInt (saturate 32 z))
  | FillNumber z, LongType => Some (VLong (saturate 64 z))
  | FillNumber z, DoubleType => Some (VDouble (inject_Z z))
  | FillString s, StringType => Some (VStr s)
  | _, _ => None
  end.

Definition fill_cell (v : FillValue) (subset : list string) (f : StructField)
    (c : Cell) : Cell :=
  match c with
  | Some _ => c
  | None => if mem (fst f) subset then fill_for v (snd f) else None
  end.

Fixpoint fill_row (v : FillValue) (subset : list string) (sch : Schema)
    (row : Row) : Row :=
  match sch, row with
  | f :: sch', c :: row' => fill_cell v subset f c :: fill_row v subset sch' row'
  | _, _ => row
  end.

(** [df.na.fill(value, subset)]: every name of [subset] is resolved first. *)
Definition na_fill (v : FillValue) (subset : list string) (df : DataFrame)
    : result DataFrame :=
  _ <- mapM (resolve df) subset ;;
  Ok {| schema := schema df;
        rows := map (fill_row v subset (schema df)) (rows df) |}.

(** *** dropDuplicates: the first of each class of equal rows is kept *)

Fixpoint dedup (l : list Row) : list Row :=
  match l with
  | [] => []
  | r :: l' => r :: filter (fun r' => negb (row_eqb r r')) (dedup l')
  end.

Definition dropDuplicates (df : DataFrame) : DataFrame :=
  {| schema := schema df; rows := dedup (rows df) |}.

(** ** The cleaner (lines 35-72) *)

Open Scope string_scope.

Definition columns_to_keep : list string :=
  [ "product_name"; "categories"; "ingredients_text"; "allergens"; "traces";
    "quantity"; "serving_size"; "serving_quantity"; "nutriscore_score";
    "nutriscore_grade"; "nova_group"; "ecoscore_score"; "ecoscore_grade";
    "energy-kj_100g"; "energy-kcal_100g"; "sugars_100g"; "fiber_100g";
    "proteins_100g"; "salt_100g"; "fat_100g"; "saturated-fat_100g" ].

Definition zero_fill_columns : list string :=
  [ "quantity"; "serving_quantity"; "energy-kj_100g"; "energy-kcal_100g";
    "fat_100g"; "saturated-fat_100g"; "sugars_100g";
    "fiber_100g"; "proteins_100g"; "salt_100g" ].

Definition text_fill_columns : list string :=
  [ "product_name"; "categories"; "ingredients_text"; "allergens"; "traces";
    "nutriscore_grade"; "ecoscore_grade" ].

(** Line 61: [withColumn("quantity", col("quantity").cast("int"))]. *)
Definition cast_quantity (E : Engine) (df : DataFrame) : result DataFrame :=
  _ <- resolve df "quantity" ;;
  Ok (withColumn "quantity" IntegerType
        (fun r => cast_int E (cell_of (schema df) r "quantity")) df).

Definition clean (E : Engine) (df_csv : DataFrame) : result DataFrame :=
  df_filtered <- select (filter (has_column df_csv) columns_to_keep) df_csv ;;
  df_filtered <- cast_quantity E df_filtered ;;
  df <- na_fill (FillNumber 0) zero_fill_columns df_filtered ;;
  df <- na_fill (FillString "undefined") text_fill_columns df ;;
  Ok (dropDuplicates df).

(** ** The outlier scan (lines 78-96) *)

Definition numeric_columns : list string :=
  [ "quantity"; "serving_quantity"; "nutriscore_score"; "ecoscore_score";
    "energy-kj_100g"; "energy-kcal_100g"; "sugars_100g"; "fiber_100g";
    "proteins_100g"; "salt_100g"; "fat_100g"; "saturated-fat_100g" ].

Definition is_numeric (ty : DataType) : bool :=
  match ty with
  | StringType => false
  | _ => true
  end.

(** The value of a cell as a double, as an arithmetic or comparison operator
    with a double operand sees it: the double nearest to the cell's value,
    which is the value itself when the cell holds a double, or an integer of
    at most 53 bits; NULL stays NULL. *)
Definition number_of (E : Engine) (c : Cell) : option Q :=
  match c with
  | None => None
  | Some (VInt z) | Some (VLong z) => Some (round E (inject_Z z))
  | Some (VDouble q) => Some (round E q)
  | Some (VStr s) => option_map (round E) (string_to_double E s)
  end.

(** The non-NULL values of a column, in row order. *)
Definition sample_of (E : Engine) (df : DataFrame) (column : string) : list Q :=
  flat_map (fun r => match number_of E (cell_of (schema df) r column) with
                     | Some q => [q]
                     | None => []
                     end) (rows df).

(** [df.approxQuantile(column, probabilities, relativeError)]: the column must
    resolve and be numeric; NULLs are ignored; a column without any value
    gives the empty list. *)
Definition approxQuantile (E : Engine) (df : DataFrame) (column : string)
    (probabilities : list Q) (relativeError : Q) : result (list Q) :=
  f <- resolve df column ;;
  if is_numeric (snd f) then
    match sample_of E df column with
    | [] => Ok []
    | sample => Ok (map (fun p => quantile E sample p relativeError) probabilities)
    end
  else Err (IllegalArgumentException column).

(** Python's [l[i]]. *)
Definition getitem {A : Type} (l : list A) (i : nat) : result A :=
  match nth_error l i with
  | Some a => Ok a
  | None => Err IndexError
  end.

(** SQL's three-valued comparison and disjunction. *)
Definition Qlt_bool (x y : Q) : bool := negb (Qle_bool y x).

Definition lt3 (a b : option Q) : option bool :=
  match a, b with
  | Some x, Some y => Some (Qlt_bool x y)
  | _, _ => None
  end.

Definition gt3 (a b : option Q) : option bool := lt3 b a.

Definition or3 (a b : option bool) : option bool :=
  match a, b with
  | Some true, _ => Some true
  | _, Some true => Some true
  | Some false, Some false => Some false
  | _, _ => None
  end.

(** [df.filter(cond)] keeps the rows on which the condition is true; a NULL
    condition drops the row. *)
Definition filter_rows (cond : Row -> option bool) (df : DataFrame) : DataFrame :=
  {| schema := schema df;
     rows := filter (fun r => match cond r with Some true => true | _ => false end)
               (rows df) |}.

(** The condition of line 93:
    [(col(column) < lower_bound) | (col(column) > upper_bound)]. *)
Definition outside (E : Engine) (sch : Schema) (column : string)
    (lower_bound upper_bound : Q) (r : Row) : option bool :=
  or3 (lt3 (number_of E (cell_of sch r column)) (Some lower_bound))
      (gt3 (number_of E (cell_of sch r column)) (Some upper_bound)).

(** The body of the loop of lines 85-93 for one column.  The probabilities
    0.25 and 0.75 and the factor 1.5 are doubles as written; 0.01 is the
    double nearest to it. *)
Definition outliers_of (E : Engine) (df_clean : DataFrame) (column : string)
    : result DataFrame :=
  quantiles <- approxQuantile E df_clean column [1 # 4; 3 # 4]%Q
                 (round E (1 # 100)) ;;
  q1 <- getitem quantiles 0 ;;
  q3 <- getitem quantiles 1 ;;
  let iqr := double_sub E q3 q1 in
  let lower_bound := double_sub E q1 (double_mul E (3 # 2) iqr) in
  let upper_bound := double_add E q3 (double_mul E (3 # 2) iqr) in
  Ok (filter_rows (outside E (schema df_clean) column lower_bound upper_bound) df_clean).

(** The state of the loop of lines 84-96: the dictionary [outliers], in
    insertion order, and what lines 95-96 have printed, the name of each
    scanned column with the first five of its outliers. *)
Record Scan : Type := mkScan {
  entries : list (string * DataFrame);
  printed : list (string * list Row)
}.

(** The loop over the remaining [columns]: the first column whose body raises
    ends it, and the state keeps what the columns before it left there. *)
Fixpoint scan_loop (E : Engine) (df_clean : DataFrame) (columns : list string)
    (s : Scan) : Scan * option Error :=
  match columns with
  | [] => (s, None)
  | column :: rest =>
      match outliers_of E df_clean column with
      | Ok o =>
          scan_loop E df_clean rest
            {| entries := entries s ++ [(column, o)];
               printed := printed s ++ [(column, firstn 5 (rows o))] |}
      | Err e => (s, Some e)
      end
  end.

Definition scan (E : Engine) (df_clean : DataFrame) : Scan * option Error :=
  scan_loop E df_clean numeric_columns {| entries := []; printed := [] |}.

(** The dictionary when the loop completes, the error when it does not. *)
Definition detect_outliers (E : Engine) (df_clean : DataFrame)
    : result (list (string * DataFrame)) :=
  match scan E df_clean with
  | (s, None) => Ok (entries s)
  | (_, Some e) => Err e
  end.

(** ** Derived columns and aggregates (lines 109-131) *)

(** [split(s, ",")] with the default limit: every separator splits, empty
    pieces are kept. *)
Fixpoint split (s : string) (sep : ascii) : list string :=
  match s with
  | EmptyString => [EmptyString]
  | String c s' =>
      if Ascii.eqb c sep then EmptyString :: split s' sep
      else match split s' sep with
           | [] => [String c EmptyString]
           | piece :: pieces => String c piece :: pieces
           end
  end.

Fixpoint contains (c : ascii) (s : string) : bool :=
  match s with
  | EmptyString => false
  | String c' s' => Ascii.eqb c' c || contains c s'
  end.

(** The string an expression that expects a string sees in a cell. *)
Definition string_of (E : Engine) (c : Cell) : option string :=
  match c with
  | None => None
  | Some (VStr s) => Some s
  | Some v => Some (value_to_string E v)
  end.

(** [split(col("categories_tags"), ",").getItem(0)] on one cell; an index
    outside the array gives NULL. *)
Definition first_category (E : Engine) (tags : Cell) : Cell :=
  match string_of E tags with
  | None => None
  | Some s => option_map VStr (nth_error (split s ",") 0)
  end.

(** Line 109. *)
Definition with_main_category (E : Engine) (df : DataFrame) : result DataFrame :=
  _ <- resolve df "categories_tags" ;;
  Ok (withColumn "main_category" StringType
        (fun r => first_category E (cell_of (schema df) r "categories_tags")) df).

(** Binary arithmetic: two ints give an int and an int with a long a long,
    both with wrap-around; anything else is computed on doubles, with the
    rounded operation [fq]. *)
Definition arith_type (t1 t2 : DataType) : DataType :=
  match t1, t2 with
  | IntegerType, IntegerType => IntegerType
  | IntegerType, LongType | LongType, IntegerType | LongType, LongType => LongType
  | _, _ => DoubleType
  end.

Definition arith (E : Engine) (fz : Z -> Z -> Z) (fq : Q -> Q -> Q)
    (a b : Cell) : Cell :=
  match a, b with
  | Some (VInt i), Some (VInt j) => Some (VInt (wrap 32 (fz i j)))
  | Some (VInt i), Some (VLong j) | Some (VLong i), Some (VInt j)
  | Some (VLong i), Some (VLong j) => Some (VLong (wrap 64 (fz i j)))
  | _, _ =>
      match number_of E a, number_of E b with
      | Some x, Some y => Some (VDouble (fq x y))
      | _, _ => None
      end
  end.

(** [col("energy_100g") - col("fiber_100g") + col("sugars_100g")] on one row. *)
Definition nutrition_score (E : Engine) (energy fiber sugars : Cell) : Cell :=
  arith E Z.add (double_add E) (arith E Z.sub (double_sub E) energy fiber) sugars.

(** Line 124. *)
Definition with_nutrition_score (E : Engine) (df : DataFrame) : result DataFrame :=
  energy <- resolve df "energy_100g" ;;
  fiber <- resolve df "fiber_100g" ;;
  sugars <- resolve df "sugars_100g" ;;
  Ok (withColumn "nutrition_score"
        (arith_type (arith_type (snd energy) (snd fiber)) (snd sugars))
        (fun r => nutrition_score E (cell_of (schema df) r "energy_100g")
                                    (cell_of (schema df) r "fiber_100g")
                                    (cell_of (schema df) r "sugars_100g")) df).

(** The running double sum of the values, in row order. *)
Definition double_sum (E : Engine) (xs : list Q) : Q :=
  fold_left (double_add E) xs 0%Q.

(** [avg(column)] over the rows of one group: the double sum of the values
    that are not NULL divided by their number (a count, which converts to a
    double exactly), NULL when there is none. *)
Definition avg (E : Engine) (sch : Schema) (column : string) (group : list Row) : Cell :=
  match flat_map (fun r => match number_of E (cell_of sch r column) with
                           | Some q => [q]
                           | None => []
                           end) group with
  | [] => None
  | xs => Some (VDouble (double_div E (double_sum E xs)
                           (inject_Z (Z.of_nat (List.length xs)))))
  end.

(** The keys of [groupBy], first occurrences in row order. *)
Fixpoint distinct (l : list Cell) : list Cell :=
  match l with
  | [] => []
  | c :: l' => c :: filter (fun c' => negb (cell_eqb c c')) (distinct l')
  end.

(** Lines 127-131. *)
Definition aggregate (E : Engine) (df : DataFrame) : result DataFrame :=
  key <- resolve df "main_category" ;;
  _ <- mapM (resolve df) ["energy_100g"; "sugars_100g"; "fiber_100g"] ;;
  let sch := schema df in
  let group_of k := filter (fun r => cell_eqb k (cell_of sch r "main_category")) (rows df) in
  Ok {| schema := [ key; ("avg_energy", DoubleType); ("avg_sugars", DoubleType);
                    ("avg_fiber", DoubleType) ];
        rows := map (fun k => [ k; avg E sch "energy_100g" (group_of k);
                                avg E sch "sugars_100g" (group_of k);
                                avg E sch "fiber_100g" (group_of k) ])
                  (distinct (map (fun r => cell_of sch r "main_category") (rows df))) |}.

(** ** The script from the cleaner on *)

Record Output : Type := mkOutput {
  outliers : list (string * DataFrame);
  df_clean : DataFrame;
  stats : DataFrame
}.

Definition script (E : Engine) (df_csv : DataFrame) : result Output :=
  cleaned <- clean E df_csv ;;
  found <- detect_outliers E cleaned ;;
  categorised <- with_main_category E cleaned ;;
  scored <- with_nutrition_score E categorised ;;
  table <- aggregate E scored ;;
  Ok {| outliers := found; df_clean := scored; stats := table |}.

(** The Tukey fences as lines 88-90 compute them, in double arithmetic, for
    the quartile estimates [q1] and [q3]. *)
Definition lower_fence (E : Engine) (q1 q3 : Q) : Q :=
  double_sub E q1 (double_mul E (3 # 2) (double_sub E q3 q1)).
Definition upper_fence (E : Engine) (q1 q3 : Q) : Q :=
  double_add E q3 (double_mul E (3 # 2) (double_sub E q3 q1)).

(** The quartile estimates the scan asks the engine for. *)
Definition first_quartile (E : Engine) (df : DataFrame) (column : string) : Q :=
  quantile E (sample_of E df column) (1 # 4)%Q (round E (1 # 100)).
Definition third_quartile (E : Engine) (df : DataFrame) (column : string) : Q :=
  quantile E (sample_of E df column) (3 # 4)%Q (round E (1 # 100)).

(** What the sketch guarantees beyond its rank error: on a sample of doubles
    the estimate is one of the sampled values. *)
Definition returns_sample_element (E : Engine) : Prop :=
  forall sample p err, sample <> [] ->
    (forall x, In x sample -> (round E x == x)%Q) ->
    exists x, In x sample /\ (quantile E sample p err == x)%Q.

(** ** A reference engine, for running the model

    Integers are parsed from an optional sign and decimal digits; the
    quantile is the exact nearest-rank element of the sorted sample, which
    meets any relative error; arithmetic is exact (every rational counts as
    a double). *)

Fixpoint parse_digits (s : string) (acc : Z) : option Z :=
  match s with
  | EmptyString => Some acc
  | String c s' =>
      let n := Z.of_nat (nat_of_ascii c) in
      if ((48 <=? n) && (n <=? 57))%Z then parse_digits s' (10 * acc + (n - 48))%Z
      else None
  end.

Definition parse_int (s : string) : option Z :=
  match s with
  | EmptyString => None
  | String "-" EmptyString => None
  | String "-" s' => option_map Z.opp (parse_digits s' 0)
  | _ => parse_digits s 0
  end.

Definition print_value (v : Value) : string :=
  match v with
  | VStr s => s
  | VInt z | VLong z => NilZero.string_of_int (Z.to_int z)
  | VDouble q => NilZero.string_of_int (Z.to_int (Qnum q)) ++ "/"
                 ++ NilZero.string_of_int (Z.to_int (Zpos (Qden q)))
  end.

Fixpoint insert_sorted (x : Q) (l : list Q) : list Q :=
  match l with
  | [] => [x]
  | y :: l' => if Qle_bool x y then x :: y :: l' else y :: insert_sorted x l'
  end.

Definition sort (l : list Q) : list Q := fold_right insert_sorted [] l.

Definition nearest_rank (sample : list Q) (p err : Q) : Q :=
  let n := inject_Z (Z.of_nat (List.length sample)) in
  nth (Z.to_nat (Qceiling (p * n)) - 1) (sort sample) (hd 0%Q sample).

(** [ascending l]: the elements of [l] are in non-decreasing order. *)
Fixpoint ascending (l : list Q) : Prop :=
  match l with
  | [] => True
  | x :: l' => (forall y, In y l' -> (x <= y)%Q) /\ ascending l'
  end.

(** The engine's laws hold: rounding is the identity, and the nearest-rank
    element of the sorted sample does not decrease with the probability. *)
Program Definition reference_engine : Engine :=
  {| string_to_int := parse_int;
     string_to_double := fun s => option_map inject_Z (parse_int s);
     value_to_string := print_value;
     quantile := nearest_rank;
     round := fun q => q;
     round_compat := fun x y H => H;
     round_monotone := fun x y H => H;
     round_zero := Qeq_refl 0;
     round_idempotent := fun x => Qeq_refl x;
     quantile_is_double := fun sample p err _ => Qeq_refl _;
     quantile_monotone := _ |}.
Next Obligation.
  rename H into Hp0, H0 into Hp, H1 into Hp1.
  assert (insert_length : forall x l,
            List.length (insert_sorted x l) = S (List.length l)).
  { intros x l. induction l as [|y l IH]; simpl; [reflexivity|].
    destruct (Qle_bool x y); simpl; now rewrite ?IH. }
  assert (sort_length : forall l, List.length (sort l) = List.length l).
  { intros l. induction l as [|x l IH]; simpl; [reflexivity|].
    now rewrite insert_length, IH. }
  assert (insert_elements : forall x y l,
            In y (insert_sorted x l) -> y = x \/ In y l).
  { intros x y l. induction l as [|z l IH]; simpl; [intuition|].
    destruct (Qle_bool x z); simpl; intuition. }
  assert (insert_ascending : forall x l,
            ascending l -> ascending (insert_sorted x l)).
  { intros x l. induction l as [|z l IH]; simpl; [intuition|].
    intros [Hz Hl]. destruct (Qle_bool x z) eqn:Hxz; simpl.
    - apply Qle_bool_iff in Hxz. repeat split; auto.
      intros y [<-|Hy]; [assumption|].
      eapply Qle_trans; [exact Hxz | now apply Hz].
    - split; [|now apply IH].
      intros y Hy. apply insert_elements in Hy as [->|Hy]; [|now apply Hz].
      apply Qlt_le_weak, Qnot_le_lt. intros Hle.
      apply Qle_bool_iff in Hle. congruence. }
  assert (sort_ascending : forall l, ascending (sort l)).
  { intros l. induction l as [|x l IH]; simpl; [exact I|].
    now apply insert_ascending. }
  assert (ascending_nth : forall l d i j,
            ascending l -> (i <= j)%nat -> (j < List.length l)%nat ->
            (nth i l d <= nth j l d)%Q).
  { intros l d. induction l as [|x l IH]; simpl; intros i j Hl Hij Hj; [lia|].
    destruct Hl as [Hx Hl].
    destruct i as [|i], j as [|j]; try lia.
    - apply Qle_refl.
    - apply Hx, nth_In. lia.
    - apply IH; auto; lia. }
  unfold nearest_rank.
  destruct sample as [|x sample].
  { cbn [sort fold_right].
    set (i := (_ - 1)%nat). set (j := (_ - 1)%nat).
    destruct i, j; apply Qle_refl. }
  set (l := x :: sample).
  set (n := Z.of_nat (List.length l)).
  assert (Hpos : (1 <= n)%Z) by (unfold n, l; simpl List.length; lia).
  assert (Hn : (0 <= inject_Z n)%Q).
  { change 0%Q with (inject_Z 0). rewrite <- Zle_Qle. lia. }
  assert (Hle : (Qceiling (p * inject_Z n) <= Qceiling (p' * inject_Z n))%Z).
  { apply Qceiling_resp_le. now apply Qmult_le_compat_r. }
  assert (Hmax : (Qceiling (p' * inject_Z n) <= n)%Z).
  { rewrite <- (Qceiling_Z n) at 2. apply Qceiling_resp_le.
    setoid_replace (inject_Z n) with (1 * inject_Z n)%Q at 2 by ring.
    now apply Qmult_le_compat_r. }
  apply ascending_nth; [apply sort_ascending | lia |].
  rewrite sort_length. fold n. lia.
Qed.

(** ** An engine that rounds coarsely

    Rounding to the nearest integer, halves upwards, stands in for rounding
    to the nearest double where a run of the model is to show the effect of
    rounding; the parsers, the printer and the sketch are those of the
    reference engine. *)

Definition round_to_integer (q : Q) : Q := inject_Z (Qfloor (q + (1 # 2))).

Program Definition coarse_engine : Engine :=
  {| string_to_int := parse_int;
     string_to_double := fun s => option_map inject_Z (parse_int s);
     value_to_string := print_value;
     quantile := nearest_rank;
     round := round_to_integer;
     round_compat := _;
     round_monotone := _;
     round_zero := _;
     round_idempotent := _;
     quantile_is_double := _;
     quantile_monotone := quantile_monotone reference_engine |}.
Next Obligation.
  unfold round_to_integer. now rewrite H.
Qed.
Next Obligation.
  unfold round_to_integer. rewrite <- Zle_Qle.
  apply Qfloor_resp_le. now apply Qplus_le_l.
Qed.
Next Obligation.
  reflexivity.
Qed.
Next Obligation.
  unfold round_to_integer. apply inject_Z_injective.
  set (n := Qfloor (x + (1 # 2))).
  pose proof (Qfloor_le (inject_Z n + (1 # 2))) as Hle.
  pose proof (Qlt_floor (inject_Z n + (1 # 2))) as Hlt.
  set (m := Qfloor (inject_Z n + (1 # 2))) in *.
  assert (H1 : inject_Z m < inject_Z (n + 1))
    by (rewrite inject_Z_plus; change (inject_Z 1) with 1; lra).
  assert (H2 : inject_Z n < inject_Z (m + 1)) by lra.
  rewrite <- Zlt_Qlt in H1, H2. lia.
Qed.
Next Obligation.
  rename H into Hdoubles.
  assert (sort_elements : forall y l, In y (sort l) -> In y l).
  { intros y l. induction l as [|z l IH]; simpl; [tauto|].
    generalize (sort l) IH. clear IH. intros sorted IH.
    induction sorted as [|w sorted IHs]; simpl.
    - intros [->|[]]. now left.
    - destruct (Qle_bool z w); simpl.
      + intros [->|Hin]; [now left | right; now apply IH].
      + intros [->|Hin]; [right; apply IH; now left|].
        apply IHs; [|assumption]. intros Hy. apply IH. now right. }
  unfold nearest_rank.
  match goal with |- context [nth ?k ?l ?dflt] =>
    destruct (nth_in_or_default k l dflt) as [Hin|Hdefault] end.
  - now apply Hdoubles, sort_elements.
  - rewrite Hdefault. destruct sample as [|x sample]; [reflexivity|].
    apply Hdoubles. now left.
Qed.

(** ** The cleaner in closed form

    When it does not raise, [clean] returns [cleaned]: the schema is the kept
    fields with [quantity] retyped, and each row of the input goes through
    [clean_row] before duplicates are dropped.  ([clean_ok] and
    [clean_inversion] below prove it.) *)

Definition type_of (df : DataFrame) (name : string) : DataType :=
  match field_type name (schema df) with
  | Some ty => ty
  | None => StringType
  end.

Definition kept (df : DataFrame) : list string :=
  filter (has_column df) columns_to_keep.

Definition kept_fields (df : DataFrame) : Schema :=
  map (fun name => (name, type_of df name)) (kept df).

Definition cleaned_schema (df : DataFrame) : Schema :=
  set_field "quantity" IntegerType (kept_fields df).

(** The cell a row holds for [name] when the fill step starts: the projected
    cell, and for [quantity] its cast. *)
Definition source_cell (E : Engine) (df : DataFrame) (r : Row) (name : string) : Cell :=
  if String.eqb name "quantity" then cast_int E (cell_of (schema df) r name)
  else cell_of (schema df) r name.

Definition clean_row (E : Engine) (df : DataFrame) (r : Row) : Row :=
  let projected := map (cell_of (schema df) r) (kept df) in
  let casted :=
    set_cell "quantity" (cast_int E (cell_of (kept_fields df) projected "quantity"))
      (kept_fields df) projected in
  fill_row (FillString "undefined") text_fill_columns (cleaned_schema df)
    (fill_row (FillNumber 0) zero_fill_columns (cleaned_schema df) casted).

Definition cleaned (E : Engine) (df : DataFrame) : DataFrame :=
  {| schema := cleaned_schema df;
     rows := dedup (map (clean_row E df) (rows df)) |}.

(** The type of a kept column after the cast. *)
Definition cleaned_type (df : DataFrame) (name : string) : DataType :=
  if String.eqb name "quantity" then IntegerType else type_of df name.

(** A cell after a fill that applies to it. *)
Definition filled (default : Value) (c : Cell) : Cell :=
  Some (match c with Some v => v | None => default end).

(** The names the two fill steps resolve. *)
Definition fill_columns : list string := zero_fill_columns ++ text_fill_columns.

(** Retained columns that no fill list names. *)
Definition unfilled_columns : list string :=
  filter (fun name => negb (mem name zero_fill_columns || mem name text_fill_columns))
    columns_to_keep.

(** Rows that are pairwise different for [row_eqb]. *)
Fixpoint distinct_rows (l : list Row) : Prop :=
  match l with
  | [] => True
  | r :: l' => Forall (fun r' => row_eqb r r' = false) l' /\ distinct_rows l'
  end.

(** Cells that are pairwise different for [cell_eqb]. *)
Fixpoint distinct_cells (l : list Cell) : Prop :=
  match l with
  | [] => True
  | c :: l' => Forall (fun c' => cell_eqb c c' = false) l' /\ distinct_cells l'
  end.

(** The 32-bit range. *)
Definition int32 (z : Z) : Prop := (- 2 ^ 31 <= z <= 2 ^ 31 - 1)%Z.

(** ** Example tables *)

Module Examples.

Definition product_schema : Schema :=
  [ ("product_name", StringType); ("categories", StringType);
    ("ingredients_text", StringType); ("allergens", StringType);
    ("traces", StringType); ("quantity", StringType);
    ("serving_size", StringType); ("serving_quantity", DoubleType);
    ("nutriscore_score", IntegerType); ("nutriscore_grade", StringType);
    ("nova_group", IntegerType); ("ecoscore_score", IntegerType);
    ("ecoscore_grade", StringType); ("energy-kj_100g", DoubleType);
    ("energy-kcal_100g", DoubleType); ("sugars_100g", DoubleType);
    ("fiber_100g", DoubleType); ("proteins_100g", DoubleType);
    ("salt_100g", DoubleType); ("fat_100g", DoubleType);
    ("saturated-fat_100g", DoubleType);
    ("categories_tags", StringType); ("energy_100g", DoubleType) ].

Definition str (s : string) : Cell := Some (VStr s).
Definition int (z : Z) : Cell := Some (VInt z).
Definition dbl (z : Z) : Cell := Some (VDouble (inject_Z z)).
Definition null : Cell := None.

(** Two products of category "snacks" with energy 100 and 200; the first has
    fiber 5 and sugars 20; the second has a quantity that is not a number and
    no serving size, serving quantity or Nutri-Score. *)
Definition chips : Row :=
  [ str "Chips"; str "Snacks"; str "potatoes, oil, salt"; null; null;
    str "150"; str "30g"; dbl 30; int 12; str "d"; int 4; int 40; str "c";
    dbl 418; dbl 100; dbl 20; dbl 5; dbl 6; dbl 1; dbl 30; dbl 3;
    str "snacks,salty-snacks,chips"; dbl 100 ].

Definition crackers : Row :=
  [ str "Crackers"; str "Snacks"; null; str "gluten"; null;
    str "200 g"; null; null; null; null; int 4; int 55; str "b";
    dbl 836; dbl 200; dbl 2; null; dbl 9; dbl 2; dbl 10; dbl 1;
    str "snacks"; dbl 200 ].

Definition snacks : DataFrame :=
  {| schema := product_schema; rows := [chips; crackers] |}.

(** The same table read from a file in which no product states a serving
    quantity: schema inference then types the column as a string. *)
Definition snacks_without_servings : DataFrame :=
  {| schema := set_field "serving_quantity" StringType product_schema;
     rows := [ set_cell "serving_quantity" null product_schema chips;
               crackers ] |}.

(** The frame the last three statements of the script were written for: the
    cleaned columns together with [categories_tags] and [energy_100g]. *)
Definition snacks_unprojected : DataFrame :=
  {| schema := product_schema;
     rows := map (fill_row (FillNumber 0) zero_fill_columns product_schema)
               [chips; crackers] |}.

(** Two drinks: a cola with the tags "beverages,soda,sugary-drinks" and a
    water without tags. *)
Definition cola : Row :=
  [ str "Cola"; str "Beverages"; str "water, sugar"; null; null;
    str "330"; str "330 ml"; dbl 330; int 14; str "e"; int 4; int 30; str "d";
    dbl 180; dbl 42; dbl 11; dbl 0; dbl 0; dbl 0; dbl 0; dbl 0;
    str "beverages,soda,sugary-drinks"; dbl 180 ].

Definition water : Row :=
  [ str "Water"; str "Beverages"; null; null; null;
    str "1 l"; null; null; int 0; str "a"; int 1; int 90; str "a";
    dbl 0; dbl 0; dbl 0; dbl 0; dbl 0; dbl 0; dbl 0; dbl 0;
    null; dbl 0 ].

Definition drinks : DataFrame :=
  {| schema := product_schema; rows := [cola; water] |}.

Definition scores (l : list Cell) : DataFrame :=
  {| schema := [("nutriscore_score", IntegerType)];
     rows := map (fun c => [c]) l |}.

Definition spread : DataFrame := scores [int 1; int 2; null; int 3; int 4; int 100].
Definition peaked : DataFrame := scores [int 5; int 5; int 5; int 5; int 9].
Definition constant : DataFrame := scores [int 5; null; int 5; int 5].

(** Quartile estimates 2 and 3: one and a half times their distance is no
    integer. *)
Definition clustered : DataFrame := scores [int 2; int 2; int 3; int 3; int 5].

Definition cleaned_snacks : DataFrame := cleaned reference_engine snacks.
Definition cleaned_crackers : Row := clean_row reference_engine snacks crackers.

(** The snacks when no product states a Nutri-Score. *)
Definition unscored_snacks : DataFrame :=
  {| schema := product_schema;
     rows := [ set_cell "nutriscore_score" null product_schema chips;
               crackers ] |}.

(** A table with the product columns and no record. *)
Definition no_products : DataFrame := {| schema := product_schema; rows := [] |}.

(** The unprojected snacks with their main category, and their statistics. *)
Definition categorised_snacks : DataFrame :=
  withColumn "main_category" StringType
    (fun r => first_category reference_engine
                (cell_of product_schema r "categories_tags"))
    snacks_unprojected.

Definition snack_stats : DataFrame :=
  {| schema := [ ("main_category", StringType); ("avg_energy", DoubleType);
                 ("avg_sugars", DoubleType); ("avg_fiber", DoubleType) ];
     rows := [ [ str "snacks"; Some (VDouble (300 # 2));
                 Some (VDouble (22 # 2)); Some (VDouble (5 # 2)) ] ] |}.

End Examples.

(** * Properties *)

(** ** Lookup *)

Lemma mem_In (name : string) (names : list string) :
  mem name names = true <-> In name names.
Proof.
  unfold mem. rewrite existsb_exists. split.
  - intros [x [Hx He]]. apply String.eqb_eq in He. now subst.
  - intros H. exists name. split; [assumption | apply String.eqb_refl].
Qed.

Lemma mem_false (name : string) (names : list string) :
  mem name names = false <-> ~ In name names.
Proof.
  rewrite <- mem_In. destruct (mem name names); split; congruence.
Qed.

Lemma field_type_names (name : string) (sch : Schema) :
  field_type name sch <> None <-> In name (map fst sch).
Proof.
  induction sch as [|f sch IH]; simpl.
  - split; [congruence | tauto].
  - destruct (String.eqb_spec name (fst f)) as [->|Hne].
    + split; [auto | congruence].
    + rewrite IH. split; [auto | intros [H|H]; congruence].
Qed.

Lemma field_type_mem (name : string) (sch : Schema) :
  mem name (map fst sch) = true <-> exists ty, field_type name sch = Some ty.
Proof.
  rewrite mem_In, <- field_type_names.
  destruct (field_type name sch) as [ty|]; split.
  - eauto.
  - congruence.
  - congruence.
  - intros [ty H]. discriminate.
Qed.

Lemma field_type_In (name : string) (ty : DataType) (sch : Schema) :
  field_type name sch = Some ty -> In (name, ty) sch.
Proof.
  induction sch as [|[n t] sch IH]; simpl; [discriminate|].
  destruct (String.eqb_spec name n) as [->|Hne].
  - intros [= ->]. now left.
  - auto.
Qed.

Lemma In_field_type (name : string) (ty : DataType) (sch : Schema) :
  NoDup (map fst sch) -> In (name, ty) sch -> field_type name sch = Some ty.
Proof.
  induction sch as [|[n t] sch IH]; simpl; [tauto|].
  intros Hnd [H|H].
  - injection H as -> ->. now rewrite String.eqb_refl.
  - inversion Hnd as [|? ? Hn Hnd']; subst.
    destruct (String.eqb_spec name n) as [->|Hne].
    + exfalso. apply Hn. change n with (fst (n, ty)). now apply in_map.
    + auto.
Qed.

Lemma resolve_ok (df : DataFrame) (name : string) :
  has_column df name = true -> resolve df name = Ok (name, type_of df name).
Proof.
  unfold has_column, columns, resolve, type_of. intros H.
  apply field_type_mem in H as [ty ->]. reflexivity.
Qed.

Lemma resolve_inversion (df : DataFrame) (name : string) (f : StructField) :
  resolve df name = Ok f ->
  has_column df name = true /\ f = (name, type_of df name).
Proof.
  unfold resolve, has_column, columns, type_of.
  destruct (field_type name (schema df)) as [ty|] eqn:Hty; [|discriminate].
  intros [= <-]. split; [|reflexivity].
  apply field_type_mem. eauto.
Qed.

Lemma mapM_resolve_ok (df : DataFrame) (names : list string) :
  forallb (has_column df) names = true ->
  mapM (resolve df) names = Ok (map (fun name => (name, type_of df name)) names).
Proof.
  induction names as [|n names IH]; simpl; [reflexivity|].
  intros H. apply andb_prop in H as [Hn Hrest].
  rewrite (resolve_ok _ _ Hn). simpl. rewrite (IH Hrest). reflexivity.
Qed.

Lemma mapM_resolve_inversion (df : DataFrame) (names : list string) (fields : Schema) :
  mapM (resolve df) names = Ok fields ->
  forallb (has_column df) names = true.
Proof.
  revert fields. induction names as [|n names IH]; simpl; [reflexivity|].
  intros fields. destruct (resolve df n) as [f|e] eqn:Hn; simpl; [|discriminate].
  destruct (mapM (resolve df) names) as [fs|e] eqn:Hrest; simpl; [|discriminate].
  intros _. apply resolve_inversion in Hn as [-> _]. simpl. eauto.
Qed.

Lemma resolve_error (df : DataFrame) (name : string) (e : Error) :
  resolve df name = Err e ->
  e = AnalysisException name /\ has_column df name = false.
Proof.
  unfold resolve. destruct (field_type name (schema df)) as [ty|] eqn:Hty;
    [discriminate|].
  intros [= <-]. split; [reflexivity|].
  destruct (has_column df name) eqn:H; [|reflexivity].
  apply field_type_mem in H as [ty H]. congruence.
Qed.

Lemma mapM_resolve_error (df : DataFrame) (names : list string) (e : Error) :
  mapM (resolve df) names = Err e ->
  exists name, In name names /\ e = AnalysisException name /\
    has_column df name = false.
Proof.
  induction names as [|n names IH]; simpl; [discriminate|].
  destruct (resolve df n) as [f|e'] eqn:Hn; simpl.
  - destruct (mapM (resolve df) names) as [fs|e'] eqn:Hrest; simpl;
      [discriminate|].
    intros [= <-]. destruct (IH eq_refl) as [name [Hin H]]. eauto.
  - intros [= <-]. apply resolve_error in Hn. eauto.
Qed.

Lemma forallb_filter_same {A : Type} (p : A -> bool) (l : list A) :
  forallb p (filter p l) = true.
Proof.
  apply forallb_forall. intros x Hx. now apply filter_In in Hx.
Qed.

(** A cell of a projected row is the cell of the source row. *)
Lemma cell_of_projection (sch : Schema) (names : list string) (f : string -> Cell) :
  map fst sch = names ->
  forall name, In name names -> cell_of sch (map f names) name = f name.
Proof.
  revert names. induction sch as [|[n t] sch IH]; intros names <-; simpl; [tauto|].
  intros name [->|H].
  - now rewrite String.eqb_refl.
  - destruct (String.eqb_spec name n) as [->|Hne]; [reflexivity|].
    now apply IH.
Qed.

(** Looking every column of a row up by name gives the row back. *)
Lemma projection_identity (sch : Schema) (r : Row) :
  NoDup (map fst sch) -> List.length r = List.length sch ->
  map (cell_of sch r) (map fst sch) = r.
Proof.
  revert r. induction sch as [|[n t] sch IH]; intros [|c r] Hnd Hlen;
    simpl in *; try discriminate; [reflexivity|].
  inversion Hnd as [|? ? Hn Hnd']; subst.
  rewrite String.eqb_refl. f_equal.
  transitivity (map (cell_of sch r) (map fst sch)); [|apply IH; auto].
  apply map_ext_in. intros name Hin.
  destruct (String.eqb_spec name n) as [->|Hne]; [contradiction|reflexivity].
Qed.

(** ** withColumn on an existing column *)

Lemma set_field_names (name : string) (ty : DataType) (sch : Schema) :
  In name (map fst sch) -> map fst (set_field name ty sch) = map fst sch.
Proof.
  induction sch as [|[n t] sch IH]; simpl; [tauto|].
  destruct (String.eqb_spec name n) as [->|Hne]; simpl; [reflexivity|].
  intros [H|H]; [congruence|]. now rewrite IH.
Qed.

Lemma set_field_type (name name' : string) (ty : DataType) (sch : Schema) :
  field_type name' (set_field name ty sch) =
  if String.eqb name' name then Some ty else field_type name' sch.
Proof.
  induction sch as [|[n t] sch IH]; simpl.
  - now destruct (String.eqb name' name).
  - destruct (String.eqb_spec name n) as [->|Hne]; simpl.
    + now destruct (String.eqb name' n).
    + destruct (String.eqb_spec name' n) as [->|Hne'].
      * destruct (String.eqb_spec n name); [congruence|reflexivity].
      * apply IH.
Qed.

Lemma set_field_same (name : string) (ty : DataType) (sch : Schema) :
  field_type name sch = Some ty -> set_field name ty sch = sch.
Proof.
  induction sch as [|[n t] sch IH]; simpl; [discriminate|].
  destruct (String.eqb_spec name n) as [->|Hne].
  - now intros [= ->].
  - intros H. now rewrite IH.
Qed.

Lemma set_cell_length (name : string) (v : Cell) (sch : Schema) (r : Row) :
  In name (map fst sch) -> List.length r = List.length sch ->
  List.length (set_cell name v sch r) = List.length sch.
Proof.
  revert r. induction sch as [|[n t] sch IH]; intros [|c r]; simpl;
    try tauto; try discriminate.
  destruct (String.eqb_spec name n) as [->|Hne]; simpl; [auto|].
  intros [H|H] Hlen; [congruence|]. rewrite IH; auto.
Qed.

Lemma set_cell_same (name : string) (sch : Schema) (r : Row) :
  In name (map fst sch) -> set_cell name (cell_of sch r name) sch r = r.
Proof.
  revert r. induction sch as [|[n t] sch IH]; intros [|c r]; simpl;
    try tauto.
  destruct (String.eqb_spec name n) as [->|Hne]; [reflexivity|].
  intros [H|H]; [congruence|]. now rewrite IH.
Qed.

Lemma cell_of_set_cell (name name' : string) (ty : DataType) (v : Cell)
    (sch : Schema) (r : Row) :
  In name (map fst sch) -> List.length r = List.length sch ->
  cell_of (set_field name ty sch) (set_cell name v sch r) name' =
  if String.eqb name' name then v else cell_of sch r name'.
Proof.
  revert r. induction sch as [|[n t] sch IH]; intros [|c r]; simpl;
    try tauto; try discriminate.
  intros Hin Hlen.
  destruct (String.eqb_spec name n) as [->|Hne]; simpl.
  - now destruct (String.eqb name' n).
  - destruct Hin as [H|H]; [congruence|].
    destruct (String.eqb_spec name' n) as [->|Hne'].
    + destruct (String.eqb_spec n name); [congruence|reflexivity].
    + apply IH; auto.
Qed.

(** ** na.fill *)

Lemma fill_row_length (v : FillValue) (subset : list string) (sch : Schema) (r : Row) :
  List.length (fill_row v subset sch r) = List.length r.
Proof.
  revert r. induction sch as [|f sch IH]; intros [|c r]; simpl; auto.
Qed.

Lemma cell_of_fill_row (v : FillValue) (subset : list string) (sch : Schema)
    (r : Row) (name : string) (ty : DataType) :
  List.length r = List.length sch -> field_type name sch = Some ty ->
  cell_of sch (fill_row v subset sch r) name =
  fill_cell v subset (name, ty) (cell_of sch r name).
Proof.
  revert r. induction sch as [|[n t] sch IH]; intros [|c r]; simpl;
    try discriminate.
  intros Hlen. destruct (String.eqb_spec name n) as [->|Hne].
  - now intros [= ->].
  - intros H. apply IH; auto.
Qed.

Lemma fill_cell_idempotent (v : FillValue) (subset : list string)
    (f : StructField) (c : Cell) :
  fill_cell v subset f (fill_cell v subset f c) = fill_cell v subset f c.
Proof.
  unfold fill_cell. destruct c as [x|]; [reflexivity|].
  destruct (mem (fst f) subset) eqn:Hm; [|reflexivity].
  destruct (fill_for v (snd f)) eqn:Hf; reflexivity.
Qed.

Lemma fill_row_idempotent (v : FillValue) (subset : list string) (sch : Schema) (r : Row) :
  fill_row v subset sch (fill_row v subset sch r) = fill_row v subset sch r.
Proof.
  revert r. induction sch as [|f sch IH]; intros [|c r]; simpl; auto.
  now rewrite fill_cell_idempotent, IH.
Qed.

(** A numeric fill and a string fill never touch the same cell. *)
Lemma fill_cell_commute (z : Z) (s : string) (zs ss : list string)
    (f : StructField) (c : Cell) :
  fill_cell (FillNumber z) zs f (fill_cell (FillString s) ss f c) =
  fill_cell (FillString s) ss f (fill_cell (FillNumber z) zs f c).
Proof.
  unfold fill_cell. destruct c as [x|]; [reflexivity|].
  destruct f as [n t]; cbn [fst snd].
  destruct t, (mem n ss), (mem n zs); reflexivity.
Qed.

Lemma fill_row_commute (z : Z) (s : string) (zs ss : list string)
    (sch : Schema) (r : Row) :
  fill_row (FillNumber z) zs sch (fill_row (FillString s) ss sch r) =
  fill_row (FillString s) ss sch (fill_row (FillNumber z) zs sch r).
Proof.
  revert r. induction sch as [|f sch IH]; intros [|c r]; simpl; auto.
  now rewrite fill_cell_commute, IH.
Qed.

(** ** dropDuplicates *)

Lemma distinct_rows_filter (p : Row -> bool) (l : list Row) :
  distinct_rows l -> distinct_rows (filter p l).
Proof.
  induction l as [|r l IH]; simpl; [auto|].
  intros [Hr Hl]. destruct (p r); simpl; [|auto].
  split; [|auto].
  apply Forall_forall. intros r' Hin. apply filter_In in Hin as [Hin _].
  rewrite Forall_forall in Hr. auto.
Qed.

Lemma dedup_distinct (l : list Row) : distinct_rows (dedup l).
Proof.
  induction l as [|r l IH]; simpl; [exact I|].
  split.
  - apply Forall_forall. intros r' Hin. apply filter_In in Hin as [_ Hne].
    now apply negb_true_iff in Hne.
  - now apply distinct_rows_filter.
Qed.

Lemma filter_keeps_all {A : Type} (p : A -> bool) (l : list A) :
  Forall (fun x => p x = true) l -> filter p l = l.
Proof.
  induction 1 as [|x l Hx _ IH]; simpl; [reflexivity|].
  now rewrite Hx, IH.
Qed.

Lemma dedup_of_distinct (l : list Row) : distinct_rows l -> dedup l = l.
Proof.
  induction l as [|r l IH]; simpl; [reflexivity|].
  intros [Hr Hl]. rewrite (IH Hl). f_equal.
  apply filter_keeps_all. eapply Forall_impl; [|exact Hr].
  intros r' H. simpl in H. now rewrite H.
Qed.

Lemma dedup_incl (l : list Row) (r : Row) : In r (dedup l) -> In r l.
Proof.
  revert r. induction l as [|r0 l IH]; simpl; [tauto|].
  intros r [H|H]; [now left|].
  apply filter_In in H as [H _]. right. now apply IH.
Qed.

(** ** Equality of rows is an equivalence *)

Lemma value_eqb_refl (v : Value) : value_eqb v v = true.
Proof.
  destruct v; simpl;
    auto using Z.eqb_refl, Qeq_bool_refl, String.eqb_refl.
Qed.

Lemma value_eqb_trans (a b c : Value) :
  value_eqb a b = true -> value_eqb b c = true -> value_eqb a c = true.
Proof.
  destruct a, b, c; simpl; try discriminate.
  - rewrite !Z.eqb_eq. congruence.
  - rewrite !Z.eqb_eq. congruence.
  - apply Qeq_bool_trans.
  - rewrite !String.eqb_eq. congruence.
Qed.

Lemma cell_eqb_refl (c : Cell) : cell_eqb c c = true.
Proof. destruct c; simpl; auto using value_eqb_refl. Qed.

Lemma cell_eqb_trans (a b c : Cell) :
  cell_eqb a b = true -> cell_eqb b c = true -> cell_eqb a c = true.
Proof.
  destruct a, b, c; simpl; try discriminate; auto.
  apply value_eqb_trans.
Qed.

Lemma row_eqb_refl (r : Row) : row_eqb r r = true.
Proof.
  induction r as [|c r IH]; simpl; [reflexivity|].
  now rewrite cell_eqb_refl, IH.
Qed.

Lemma row_eqb_trans (a b c : Row) :
  row_eqb a b = true -> row_eqb b c = true -> row_eqb a c = true.
Proof.
  revert b c. induction a as [|x a IH]; intros [|y b] [|z c]; simpl;
    try discriminate; auto.
  rewrite !andb_true_iff. intros [Hxy Hab] [Hyz Hbc].
  split; [eapply cell_eqb_trans | eapply IH]; eauto.
Qed.

Lemma dedup_represents (l : list Row) (r : Row) :
  In r l -> exists r', In r' (dedup l) /\ row_eqb r' r = true.
Proof.
  induction l as [|x l IH]; simpl; [tauto|].
  intros [->|Hin].
  - exists r. split; [now left | apply row_eqb_refl].
  - destruct (IH Hin) as [r' [Hr' Heq]].
    destruct (row_eqb x r') eqn:Hx.
    + exists x. split; [now left | eapply row_eqb_trans; eauto].
    + exists r'. split; [|assumption].
      right. apply filter_In. split; [assumption | now rewrite Hx].
Qed.

Lemma dedup_length (l : list Row) : (List.length (dedup l) <= List.length l)%nat.
Proof.
  induction l as [|x l IH]; simpl; [apply le_n|].
  apply le_n_S. eapply Nat.le_trans; [apply filter_length_le | exact IH].
Qed.

Lemma row_eqb_cells (sch : Schema) (a b : Row) (name : string) :
  row_eqb a b = true -> cell_eqb (cell_of sch a name) (cell_of sch b name) = true.
Proof.
  revert a b. induction sch as [|f sch IH]; intros [|x a] [|y b]; simpl;
    try discriminate; auto.
  rewrite andb_true_iff. intros [Hxy Hab].
  destruct (String.eqb name (fst f)); auto.
Qed.

Lemma cell_eqb_int (c : Cell) (z : Z) :
  cell_eqb c (Some (VInt z)) = true -> c = Some (VInt z).
Proof.
  destruct c as [[x|x|x|x]|]; simpl; try discriminate.
  intros H. apply Z.eqb_eq in H. now subst.
Qed.

(** ** The cleaner returns [cleaned], or raises *)

Lemma kept_fields_names (df : DataFrame) : map fst (kept_fields df) = kept df.
Proof.
  unfold kept_fields. rewrite map_map. simpl. apply map_id.
Qed.

Lemma kept_In (df : DataFrame) (name : string) :
  In name (kept df) <-> In name columns_to_keep /\ has_column df name = true.
Proof. apply filter_In. Qed.

Lemma columns_to_keep_NoDup : NoDup columns_to_keep.
Proof.
  repeat (constructor; [simpl; intuition discriminate|]). constructor.
Qed.

Lemma kept_NoDup (df : DataFrame) : NoDup (kept df).
Proof. apply NoDup_filter, columns_to_keep_NoDup. Qed.

Lemma kept_ext (d d' : DataFrame) :
  (forall name, In name columns_to_keep -> has_column d name = has_column d' name) ->
  kept d = kept d'.
Proof. intros H. unfold kept. now apply filter_ext_in. Qed.

Lemma kept_unfold (df : DataFrame) :
  filter (has_column df) columns_to_keep = kept df.
Proof. unfold kept. reflexivity. Qed.

(** [kept df] does not reduce for an unknown [df]; it is handled through
    the lemmas above from here on. *)
Opaque kept.

Lemma quantity_kept_column : In "quantity" columns_to_keep.
Proof. simpl. auto 10. Qed.

Lemma fill_columns_kept (name : string) :
  In name fill_columns -> In name columns_to_keep.
Proof.
  intros H. apply mem_In. revert name H. apply Forall_forall.
  repeat constructor.
Qed.

Lemma quantity_filled : In "quantity" fill_columns.
Proof. simpl. auto. Qed.

Lemma cleaned_schema_names (df : DataFrame) :
  has_column df "quantity" = true ->
  map fst (cleaned_schema df) = kept df.
Proof.
  intros H. unfold cleaned_schema. rewrite set_field_names; rewrite kept_fields_names.
  - reflexivity.
  - apply kept_In. split; [simpl; auto 10 | assumption].
Qed.

Lemma na_fill_ok (v : FillValue) (subset : list string) (df : DataFrame) :
  forallb (has_column df) subset = true ->
  na_fill v subset df =
  Ok {| schema := schema df;
        rows := map (fill_row v subset (schema df)) (rows df) |}.
Proof.
  intros H. unfold na_fill. now rewrite (mapM_resolve_ok _ _ H).
Qed.

Lemma na_fill_inversion (v : FillValue) (subset : list string) (df d : DataFrame) :
  na_fill v subset df = Ok d -> forallb (has_column df) subset = true.
Proof.
  unfold na_fill.
  destruct (mapM (resolve df) subset) as [fs|e] eqn:H; [|discriminate].
  intros _. eapply mapM_resolve_inversion, H.
Qed.

Lemma cast_quantity_ok (E : Engine) (df : DataFrame) :
  has_column df "quantity" = true ->
  cast_quantity E df =
  Ok (withColumn "quantity" IntegerType
        (fun r => cast_int E (cell_of (schema df) r "quantity")) df).
Proof.
  intros H. unfold cast_quantity. now rewrite (resolve_ok _ _ H).
Qed.

Lemma cast_quantity_inversion (E : Engine) (df d : DataFrame) :
  cast_quantity E df = Ok d -> has_column df "quantity" = true.
Proof.
  unfold cast_quantity.
  destruct (resolve df "quantity") as [f|e] eqn:H; [|discriminate].
  intros _. now apply resolve_inversion in H.
Qed.

Section CleanerClosedForm.

Variable E : Engine.
Variable df : DataFrame.

Let projected : DataFrame :=
  {| schema := kept_fields df;
     rows := map (fun r => map (cell_of (schema df) r) (kept df)) (rows df) |}.

Lemma select_kept :
  select (filter (has_column df) columns_to_keep) df = Ok projected.
Proof.
  unfold select, projected, kept_fields.
  rewrite mapM_resolve_ok by apply forallb_filter_same.
  cbn [bind]. rewrite !kept_unfold. reflexivity.
Qed.

Lemma has_column_projected (name : string) :
  has_column projected name = true <-> In name (kept df).
Proof.
  unfold has_column, columns. simpl. rewrite kept_fields_names. apply mem_In.
Qed.

Lemma has_column_casted (name : string) (d : DataFrame) :
  has_column df "quantity" = true -> schema d = cleaned_schema df ->
  has_column d name = true <-> In name (kept df).
Proof.
  intros Hq Hd. unfold has_column, columns. rewrite Hd.
  rewrite cleaned_schema_names by assumption. apply mem_In.
Qed.

Lemma clean_steps :
  clean E df =
  (df1 <- cast_quantity E projected ;;
   df2 <- na_fill (FillNumber 0) zero_fill_columns df1 ;;
   df3 <- na_fill (FillString "undefined") text_fill_columns df2 ;;
   Ok (dropDuplicates df3)).
Proof.
  unfold clean. rewrite select_kept. reflexivity.
Qed.

Lemma clean_ok :
  forallb (has_column df) fill_columns = true -> clean E df = Ok (cleaned E df).
Proof.
  intros Hall. rewrite forallb_forall in Hall.
  assert (Hkept : forall name, In name fill_columns -> In name (kept df)).
  { intros name H. apply kept_In. split; [now apply fill_columns_kept | auto]. }
  assert (Hq : has_column df "quantity" = true) by (apply Hall, quantity_filled).
  rewrite clean_steps.
  rewrite cast_quantity_ok
    by (apply has_column_projected, Hkept, quantity_filled).
  cbn [bind].
  match goal with |- context [na_fill _ zero_fill_columns ?d] => set (casted := d) end.
  assert (Hsch : schema casted = cleaned_schema df) by reflexivity.
  rewrite na_fill_ok; cbn [bind].
  2:{ apply forallb_forall. intros name Hin.
      apply has_column_casted; [assumption|assumption|].
      apply Hkept. unfold fill_columns. apply in_or_app. now left. }
  rewrite na_fill_ok; cbn [bind].
  2:{ apply forallb_forall. intros name Hin.
      apply has_column_casted; [assumption|assumption|].
      apply Hkept. unfold fill_columns. apply in_or_app. now right. }
  unfold dropDuplicates, cleaned. cbn [schema rows]. rewrite Hsch.
  do 2 f_equal. unfold casted, withColumn, projected. cbn [schema rows].
  rewrite !map_map. reflexivity.
Qed.

Lemma clean_inversion (d : DataFrame) :
  clean E df = Ok d ->
  forallb (has_column df) fill_columns = true /\ d = cleaned E df.
Proof.
  intros H.
  assert (Hall : forallb (has_column df) fill_columns = true).
  { revert H. rewrite clean_steps.
    destruct (cast_quantity E projected) as [df1|e] eqn:H1; [|discriminate].
    cbn [bind].
    destruct (na_fill (FillNumber 0) zero_fill_columns df1) as [df2|e] eqn:H2;
      [|discriminate].
    cbn [bind].
    destruct (na_fill (FillString "undefined") text_fill_columns df2)
      as [df3|e] eqn:H3; [|discriminate].
    intros _.
    pose proof (cast_quantity_inversion _ _ H1) as Hq.
    apply has_column_projected, kept_In in Hq as [_ Hq].
    rewrite (cast_quantity_ok E projected) in H1
      by (apply has_column_projected, kept_In; split; [simpl; auto 10|assumption]).
    injection H1 as <-.
    pose proof (na_fill_inversion _ _ _ H2) as Hz.
    rewrite (na_fill_ok _ _ _ Hz) in H2. injection H2 as <-.
    pose proof (na_fill_inversion _ _ _ H3) as Ht.
    unfold fill_columns. rewrite forallb_app.
    rewrite forallb_forall in Hz, Ht.
    apply andb_true_intro; split; apply forallb_forall; intros name Hin.
    - specialize (Hz name Hin).
      apply (has_column_casted name _ Hq), kept_In in Hz; [tauto|reflexivity].
    - specialize (Ht name Hin).
      apply (has_column_casted name _ Hq), kept_In in Ht; [tauto|reflexivity]. }
  split; [assumption|]. rewrite (clean_ok Hall) in H. congruence.
Qed.

(** The cleaner raises only for a column of the fill lists that the input
    lacks. *)
Lemma clean_error (e : Error) :
  clean E df = Err e ->
  exists column, In column fill_columns /\ has_column df column = false /\
    e = AnalysisException column.
Proof.
  assert (Hlacks : forall name d, In name fill_columns ->
            (has_column d name = true <-> In name (kept df)) ->
            has_column d name = false -> has_column df name = false).
  { intros name d Hfill Hd Hname.
    destruct (has_column df name) eqn:H; [|reflexivity].
    rewrite <- Hname. symmetry. apply Hd, kept_In.
    split; [now apply fill_columns_kept | assumption]. }
  rewrite clean_steps.
  destruct (cast_quantity E projected) as [df1|e1] eqn:H1.
  - pose proof (cast_quantity_inversion _ _ H1) as Hq.
    apply has_column_projected, kept_In in Hq as [_ Hq].
    rewrite (cast_quantity_ok E projected) in H1
      by (apply has_column_projected, kept_In; split; [simpl; auto 10|assumption]).
    injection H1 as <-. cbn [bind].
    match goal with |- context [na_fill _ zero_fill_columns ?d] => set (casted := d) end.
    assert (Hcasted : forall name,
              has_column casted name = true <-> In name (kept df))
      by (intros name; now apply has_column_casted).
    destruct (na_fill (FillNumber 0) zero_fill_columns casted) as [df2|e2] eqn:H2.
    + pose proof (na_fill_inversion _ _ _ H2) as Hz.
      rewrite (na_fill_ok _ _ _ Hz) in H2. injection H2 as <-. cbn [bind].
      match goal with |- context [na_fill _ text_fill_columns ?d] => set (zeroed := d) end.
      destruct (na_fill (FillString "undefined") text_fill_columns zeroed)
        as [df3|e3] eqn:H3; [discriminate|].
      cbn [bind]. intros [= <-]. unfold na_fill in H3.
      destruct (mapM (resolve zeroed) text_fill_columns) as [fs|e'] eqn:Hm;
        [discriminate|].
      injection H3 as <-.
      apply mapM_resolve_error in Hm as [name [Hin [-> Hname]]].
      assert (Hfill : In name fill_columns)
        by (unfold fill_columns; apply in_or_app; now right).
      exists name. repeat split; [assumption|].
      apply (Hlacks name zeroed Hfill); [|assumption].
      apply (has_column_casted name zeroed Hq). reflexivity.
    + cbn [bind]. intros [= <-]. unfold na_fill in H2.
      destruct (mapM (resolve casted) zero_fill_columns) as [fs|e'] eqn:Hm;
        [discriminate|].
      injection H2 as <-.
      apply mapM_resolve_error in Hm as [name [Hin [-> Hname]]].
      assert (Hfill : In name fill_columns)
        by (unfold fill_columns; apply in_or_app; now left).
      exists name. repeat split; [assumption|].
      now apply (Hlacks name casted Hfill).
  - cbn [bind]. intros [= <-]. unfold cast_quantity in H1.
    destruct (resolve projected "quantity") as [f|e'] eqn:Hr; [discriminate|].
    injection H1 as <-. apply resolve_error in Hr as [-> Hname].
    exists "quantity". repeat split; [apply quantity_filled|].
    apply (Hlacks "quantity" projected quantity_filled); [|assumption].
    apply has_column_projected.
Qed.

End CleanerClosedForm.

(** ** The schema and the cells of a cleaned frame *)

Lemma field_type_map (g : string -> DataType) (names : list string) (name : string) :
  In name names ->
  field_type name (map (fun n => (n, g n)) names) = Some (g name).
Proof.
  induction names as [|a names IH]; simpl; [tauto|].
  destruct (String.eqb_spec name a) as [->|Hne]; [reflexivity|].
  intros [H|H]; [congruence|auto].
Qed.

Lemma set_field_map (q : string) (ty : DataType) (g : string -> DataType)
    (names : list string) :
  NoDup names -> In q names ->
  set_field q ty (map (fun n => (n, g n)) names) =
  map (fun n => (n, if String.eqb n q then ty else g n)) names.
Proof.
  induction names as [|a names IH]; simpl; [tauto|].
  intros Hnd Hin. inversion Hnd as [|? ? Ha Hnd']; subst.
  destruct (String.eqb_spec q a) as [->|Hne].
  - rewrite String.eqb_refl. f_equal. apply map_ext_in. intros n Hn.
    destruct (String.eqb_spec n a) as [->|_]; [contradiction|reflexivity].
  - destruct (String.eqb_spec a q) as [->|_]; [congruence|].
    destruct Hin as [H|H]; [congruence|]. now rewrite IH.
Qed.

Section CleanedFrame.

Variable E : Engine.
Variable df : DataFrame.
Hypothesis quantity_present : has_column df "quantity" = true.

Lemma quantity_kept : In "quantity" (kept df).
Proof. apply kept_In. split; [apply quantity_kept_column | assumption]. Qed.

Lemma cleaned_schema_map :
  cleaned_schema df = map (fun name => (name, cleaned_type df name)) (kept df).
Proof.
  unfold cleaned_schema, kept_fields.
  rewrite set_field_map by (apply kept_NoDup || apply quantity_kept).
  reflexivity.
Qed.

Lemma cleaned_schema_length : List.length (cleaned_schema df) = List.length (kept df).
Proof. rewrite cleaned_schema_map. apply length_map. Qed.

Lemma field_type_cleaned (name : string) :
  In name (kept df) ->
  field_type name (cleaned_schema df) = Some (cleaned_type df name).
Proof.
  intros H. rewrite cleaned_schema_map. now apply field_type_map.
Qed.

Lemma field_type_cleaned_inversion (name : string) (ty : DataType) :
  field_type name (cleaned_schema df) = Some ty ->
  In name (kept df) /\ ty = cleaned_type df name.
Proof.
  intros H.
  assert (Hin : In name (kept df)).
  { rewrite <- (cleaned_schema_names _ quantity_present).
    apply field_type_names. congruence. }
  split; [assumption|]. rewrite (field_type_cleaned _ Hin) in H. congruence.
Qed.

Lemma clean_row_length (r : Row) :
  List.length (clean_row E df r) = List.length (cleaned_schema df).
Proof.
  unfold clean_row. rewrite !fill_row_length.
  rewrite set_cell_length.
  - rewrite cleaned_schema_length. unfold kept_fields. now rewrite length_map.
  - rewrite kept_fields_names. apply quantity_kept.
  - unfold kept_fields. now rewrite !length_map.
Qed.

(** The cell of a cleaned row: the source cell after the two fills. *)
Lemma clean_row_cell (r : Row) (name : string) :
  In name (kept df) ->
  cell_of (cleaned_schema df) (clean_row E df r) name =
  fill_cell (FillString "undefined") text_fill_columns (name, cleaned_type df name)
    (fill_cell (FillNumber 0) zero_fill_columns (name, cleaned_type df name)
       (source_cell E df r name)).
Proof.
  intros Hin. unfold clean_row.
  assert (Hlen : List.length
            (set_cell "quantity"
               (cast_int E
                  (cell_of (kept_fields df)
                     (map (cell_of (schema df) r) (kept df)) "quantity"))
               (kept_fields df) (map (cell_of (schema df) r) (kept df)))
          = List.length (cleaned_schema df)).
  { rewrite set_cell_length.
    - rewrite cleaned_schema_length. unfold kept_fields. now rewrite length_map.
    - rewrite kept_fields_names. apply quantity_kept.
    - unfold kept_fields. now rewrite !length_map. }
  rewrite (cell_of_fill_row _ _ _ _ _ (ty := cleaned_type df name));
    [| now rewrite fill_row_length | now apply field_type_cleaned].
  rewrite (cell_of_fill_row _ _ _ _ _ (ty := cleaned_type df name));
    [| assumption | now apply field_type_cleaned].
  do 2 f_equal. unfold cleaned_schema.
  rewrite cell_of_set_cell;
    [| rewrite kept_fields_names; apply quantity_kept
     | unfold kept_fields; now rewrite !length_map].
  unfold source_cell.
  rewrite !(cell_of_projection (kept_fields df) (cell_of (schema df) r)
              (kept_fields_names df)) by (assumption || apply quantity_kept).
  destruct (String.eqb_spec name "quantity") as [->|Hne]; reflexivity.
Qed.

Lemma cleaned_rows_source (row : Row) :
  In row (rows (cleaned E df)) -> exists r, In r (rows df) /\ row = clean_row E df r.
Proof.
  simpl. intros H. apply dedup_incl, in_map_iff in H as [r [<- Hr]]. eauto.
Qed.

End CleanedFrame.

Lemma cast_int_shape (E : Engine) (c : Cell) :
  cast_int E c = None \/ exists z, cast_int E c = Some (VInt z).
Proof.
  destruct c as [[z|z|q|s]|]; simpl; eauto.
  destruct (string_to_int E s) as [z|]; [destruct (fits_int z)|]; eauto.
Qed.

Lemma cast_int_idempotent (E : Engine) (c : Cell) :
  cast_int E (cast_int E c) = cast_int E c.
Proof.
  destruct (cast_int_shape E c) as [->|[z ->]]; reflexivity.
Qed.

Lemma fill_cell_applies (v : FillValue) (subset : list string) (name : string)
    (ty : DataType) (x : Value) (c : Cell) :
  In name subset -> fill_for v ty = Some x ->
  fill_cell v subset (name, ty) c = filled x c.
Proof.
  intros Hin Hx. apply mem_In in Hin. unfold fill_cell, filled. simpl.
  rewrite Hin, Hx. now destruct c.
Qed.

Lemma fill_cell_skips (v : FillValue) (subset : list string) (name : string)
    (ty : DataType) (c : Cell) :
  ~ In name subset \/ fill_for v ty = None ->
  fill_cell v subset (name, ty) c = c.
Proof.
  intros H. unfold fill_cell. simpl. destruct c as [x|]; [reflexivity|].
  destruct H as [H| ->].
  - apply mem_false in H. now rewrite H.
  - now destruct (mem name subset).
Qed.

Lemma fill_lists_disjoint (name : string) :
  In name zero_fill_columns -> In name text_fill_columns -> False.
Proof.
  simpl. intuition (subst; discriminate).
Qed.

Lemma unfilled_columns_eq :
  unfilled_columns = ["serving_size"; "nutriscore_score"; "nova_group"; "ecoscore_score"].
Proof. reflexivity. Qed.

(** ** The cleaner: what is filled and what is not *)

(** The two fills on one cell, by fill list and column type. *)
Lemma fills_of_cell (name : string) (ty : DataType) (c : Cell) :
  let cell :=
    fill_cell (FillString "undefined") text_fill_columns (name, ty)
      (fill_cell (FillNumber 0) zero_fill_columns (name, ty) c) in
  (In name zero_fill_columns ->
     (ty = IntegerType -> cell = filled (VInt 0) c) /\
     (ty = LongType -> cell = filled (VLong 0) c) /\
     (ty = DoubleType -> cell = filled (VDouble 0) c) /\
     (is_numeric ty = false -> cell = c)) /\
  (In name text_fill_columns ->
     (ty = StringType -> cell = filled (VStr "undefined") c) /\
     (ty <> StringType -> cell = c)) /\
  (~ In name fill_columns -> cell = c).
Proof.
  cbv zeta. split; [|split].
  - intros Hz.
    assert (Hnum : forall x, fill_for (FillNumber 0) ty = Some x ->
              fill_cell (FillString "undefined") text_fill_columns (name, ty)
                (fill_cell (FillNumber 0) zero_fill_columns (name, ty) c) =
              filled x c).
    { intros x Hx. rewrite (@fill_cell_applies _ _ _ _ x _ Hz Hx). reflexivity. }
    repeat split; try (intros ->; now apply Hnum).
    intros Hty.
    rewrite (@fill_cell_skips (FillNumber 0)) by (right; now destruct ty).
    apply fill_cell_skips. left. intros Ht. exact (fill_lists_disjoint Hz Ht).
  - intros Ht. split.
    + intros ->. rewrite (@fill_cell_skips (FillNumber 0)) by now right.
      now apply fill_cell_applies.
    + intros Hty. rewrite (@fill_cell_skips (FillNumber 0)).
      * apply fill_cell_skips. right. now destruct ty.
      * left. intros Hz. exact (fill_lists_disjoint Hz Ht).
  - intros Hfill. unfold fill_columns in Hfill. rewrite in_app_iff in Hfill.
    rewrite (@fill_cell_skips (FillNumber 0)) by (left; tauto).
    apply fill_cell_skips. left. tauto.
Qed.

Lemma filled_present (x : Value) (c : Cell) : filled x c <> None.
Proof. discriminate. Qed.

(** Every record of a cleaned frame is the cleaned form of an input record: it
    is as long as the schema, and each of its cells is the source cell after
    the two fills. *)
Lemma cleaned_row_cells (E : Engine) (df d : DataFrame) (row : Row) :
  clean E df = Ok d -> In row (rows d) ->
  List.length row = List.length (schema d) /\
  exists r, In r (rows df) /\
    forall name ty, field_type name (schema d) = Some ty ->
      cell_of (schema d) row name =
      fill_cell (FillString "undefined") text_fill_columns (name, ty)
        (fill_cell (FillNumber 0) zero_fill_columns (name, ty)
           (source_cell E df r name)).
Proof.
  intros Hclean Hrow.
  apply clean_inversion in Hclean as [Hall ->].
  assert (Hq : has_column df "quantity" = true).
  { rewrite forallb_forall in Hall. apply Hall, quantity_filled. }
  apply cleaned_rows_source in Hrow as [r [Hr ->]].
  cbn [schema cleaned]. split; [now apply clean_row_length|].
  exists r. split; [assumption|].
  intros name ty Hty.
  apply (field_type_cleaned_inversion df Hq) in Hty as [Hin ->].
  apply (clean_row_cell E df Hq r name Hin).
Qed.

(** The columns of the fill lists are columns of every cleaned frame, and
    [quantity] is an integer column there. *)
Lemma cleaned_fill_columns (E : Engine) (df d : DataFrame) :
  clean E df = Ok d ->
  field_type "quantity" (schema d) = Some IntegerType /\
  forall name, In name fill_columns ->
    exists ty, field_type name (schema d) = Some ty.
Proof.
  intros Hclean. apply clean_inversion in Hclean as [Hall ->].
  rewrite forallb_forall in Hall.
  assert (Hq : has_column df "quantity" = true) by apply Hall, quantity_filled.
  cbn [schema cleaned].
  split; [apply (field_type_cleaned df Hq), (quantity_kept df Hq)|].
  intros name Hin. eexists. apply (field_type_cleaned df Hq), kept_In.
  split; [now apply fill_columns_kept | now apply Hall].
Qed.

(** C4, as amended.  A cleaned frame has every column of the two fill lists,
    [quantity] as an integer column.  In each of its records, a column of the
    numeric fill list whose type is numeric never holds the absent marker:
    the cell is the source cell (for [quantity], its cast) when there is one
    and otherwise 0 of the column's type; a column of the text fill list
    whose type is string never holds it either: the cell is the source cell
    when there is one and otherwise "undefined".  A fill-list column of the
    other kind of type is left as it is. *)
Theorem clean_fills_typed_columns (E : Engine) (df d : DataFrame) (row : Row) :
  clean E df = Ok d -> In row (rows d) ->
  field_type "quantity" (schema d) = Some IntegerType /\
  (forall name, In name fill_columns ->
     exists ty, field_type name (schema d) = Some ty) /\
  exists r, In r (rows df) /\
    forall name ty, field_type name (schema d) = Some ty ->
      (In name zero_fill_columns ->
         (ty = IntegerType ->
            cell_of (schema d) row name = filled (VInt 0) (source_cell E df r name)) /\
         (ty = LongType ->
            cell_of (schema d) row name = filled (VLong 0) (source_cell E df r name)) /\
         (ty = DoubleType ->
            cell_of (schema d) row name = filled (VDouble 0) (source_cell E df r name)) /\
         (is_numeric ty = true -> cell_of (schema d) row name <> None) /\
         (is_numeric ty = false ->
            cell_of (schema d) row name = source_cell E df r name)) /\
      (In name text_fill_columns ->
         (ty = StringType ->
            cell_of (schema d) row name =
            filled (VStr "undefined") (source_cell E df r name) /\
            cell_of (schema d) row name <> None) /\
         (ty <> StringType ->
            cell_of (schema d) row name = source_cell E df r name)).
Proof.
  intros Hclean Hrow.
  destruct (cleaned_fill_columns E df Hclean) as [Hquantity Hcolumns].
  split; [assumption|]. split; [assumption|].
  destruct (cleaned_row_cells E df row Hclean Hrow) as [_ [r [Hr Hcells]]].
  exists r. split; [assumption|].
  intros name ty Hty. rewrite (Hcells name ty Hty).
  destruct (fills_of_cell name ty (source_cell E df r name))
    as [Hzero [Htext _]].
  split.
  - intros Hz. destruct (Hzero Hz) as [Hint [Hlong [Hdouble Hother]]].
    repeat split; try assumption.
    destruct ty; intros Hnum; try discriminate;
      [rewrite Hint | rewrite Hlong | rewrite Hdouble];
      try reflexivity; apply filled_present.
  - intros Ht. destruct (Htext Ht) as [Hstring Hother].
    split; [|assumption].
    intros Hty'. split; [now apply Hstring|].
    rewrite (Hstring Hty'). apply filled_present.
Qed.

(** C9.  Whether the cleaner raises does not depend on the values of
    [quantity]: it completes on every input that has the columns the fill
    steps name, and an error it raises is the [AnalysisException] for one of
    those columns that the input lacks.  When it completes, [quantity] is an
    integer column; every record of the input has a cleaned record whose
    [quantity] is the value of the cast when the cast succeeds and 0 when it
    fails, and every cleaned record holds an integer in [quantity]. *)
Theorem quantity_cast_failure_becomes_zero (E : Engine) (df : DataFrame) :
  (forallb (has_column df) fill_columns = true -> exists d, clean E df = Ok d) /\
  (forall e, clean E df = Err e ->
     exists column, In column fill_columns /\ has_column df column = false /\
       e = AnalysisException column) /\
  (forall d, clean E df = Ok d ->
     field_type "quantity" (schema d) = Some IntegerType /\
     (forall r, In r (rows df) ->
        exists row, In row (rows d) /\
          cell_of (schema d) row "quantity" =
          Some (VInt match cast_int E (cell_of (schema df) r "quantity") with
                     | Some (VInt z) => z
                     | _ => 0
                     end)) /\
     (forall row, In row (rows d) ->
        exists z, cell_of (schema d) row "quantity" = Some (VInt z))).
Proof.
  split; [intros Hall; eexists; now apply clean_ok|].
  split; [apply clean_error|].
  intros d Hclean. apply clean_inversion in Hclean as [Hall ->].
  assert (Hq : has_column df "quantity" = true).
  { rewrite forallb_forall in Hall. apply Hall, quantity_filled. }
  assert (Hcell : forall r,
            cell_of (cleaned_schema df) (clean_row E df r) "quantity" =
            Some (VInt match cast_int E (cell_of (schema df) r "quantity") with
                       | Some (VInt z) => z
                       | _ => 0
                       end)).
  { intros r.
    rewrite (clean_row_cell E df Hq r "quantity" (quantity_kept df Hq)).
    change (cleaned_type df "quantity") with IntegerType.
    change (source_cell E df r "quantity")
      with (cast_int E (cell_of (schema df) r "quantity")).
    destruct (cast_int_shape E (cell_of (schema df) r "quantity")) as [->|[z ->]];
      reflexivity. }
  cbn [schema rows cleaned].
  split; [apply (field_type_cleaned df Hq), (quantity_kept df Hq)|]. split.
  - intros r Hr.
    destruct (dedup_represents (map (clean_row E df) (rows df)) (clean_row E df r))
      as [row [Hrow Heq]]; [now apply in_map|].
    exists row. split; [assumption|].
    apply (row_eqb_cells (cleaned_schema df) _ _ "quantity") in Heq.
    rewrite Hcell in Heq. now apply cell_eqb_int.
  - intros row Hrow. apply dedup_incl, in_map_iff in Hrow as [r [<- Hr]].
    eexists. apply Hcell.
Qed.

(** C3, as amended.  A cleaned frame has exactly the kept columns that the
    input has, and every record has a cell for each of them.  Each record
    comes from an input record whose present values it keeps, whose absences
    in a column of the numeric fill list have become 0 of the column's type
    when that type is numeric, and whose absences in a string column of the
    text fill list have become "undefined".  A cell that still holds the
    absent marker belongs either to one of the four kept columns that no fill
    list names, or to a fill-list column whose type is of the other kind. *)
Theorem clean_absent_only_where_unfilled (E : Engine) (df d : DataFrame) :
  clean E df = Ok d ->
  unfilled_columns =
    ["serving_size"; "nutriscore_score"; "nova_group"; "ecoscore_score"] /\
  columns d = filter (has_column df) columns_to_keep /\
  forall row, In row (rows d) ->
    List.length row = List.length (schema d) /\
    exists r, In r (rows df) /\
      forall name ty, In (name, ty) (schema d) ->
        (forall v, source_cell E df r name = Some v ->
           cell_of (schema d) row name = Some v) /\
        (In name zero_fill_columns -> source_cell E df r name = None ->
           (ty = IntegerType -> cell_of (schema d) row name = Some (VInt 0)) /\
           (ty = LongType -> cell_of (schema d) row name = Some (VLong 0)) /\
           (ty = DoubleType -> cell_of (schema d) row name = Some (VDouble 0))) /\
        (In name text_fill_columns -> source_cell E df r name = None ->
           ty = StringType ->
           cell_of (schema d) row name = Some (VStr "undefined")) /\
        (cell_of (schema d) row name = None ->
           In name unfilled_columns \/
           (In name zero_fill_columns /\ is_numeric ty = false) \/
           (In name text_fill_columns /\ ty <> StringType)).
Proof.
  intros Hclean.
  split; [apply unfilled_columns_eq|].
  split.
  { apply clean_inversion in Hclean as [Hall ->].
    assert (Hq : has_column df "quantity" = true).
    { rewrite forallb_forall in Hall. apply Hall, quantity_filled. }
    unfold columns. cbn [schema cleaned]. rewrite kept_unfold.
    now apply cleaned_schema_names. }
  intros row Hrow.
  destruct (cleaned_row_cells E df row Hclean Hrow) as [Hlen [r [Hr Hcells]]].
  split; [assumption|]. exists r. split; [assumption|].
  intros name ty Hin.
  assert (Hname : In name columns_to_keep).
  { apply clean_inversion in Hclean as [Hall ->].
    assert (Hq : has_column df "quantity" = true).
    { rewrite forallb_forall in Hall. apply Hall, quantity_filled. }
    apply (in_map fst) in Hin. cbn [schema cleaned fst] in Hin.
    rewrite (cleaned_schema_names df Hq) in Hin. now apply kept_In in Hin. }
  assert (Hty : field_type name (schema d) = Some ty).
  { apply In_field_type; [|assumption].
    apply clean_inversion in Hclean as [Hall ->].
    assert (Hq : has_column df "quantity" = true).
    { rewrite forallb_forall in Hall. apply Hall, quantity_filled. }
    cbn [schema cleaned]. rewrite (cleaned_schema_names df Hq). apply kept_NoDup. }
  rewrite (Hcells name ty Hty).
  destruct (fills_of_cell name ty (source_cell E df r name))
    as [Hzero [Htext Hnone]].
  split; [|split; [|split]].
  - intros v ->. reflexivity.
  - intros Hz Hsrc. destruct (Hzero Hz) as [Hint [Hlong [Hdouble _]]].
    rewrite Hsrc in *. auto.
  - intros Ht Hsrc Hstring. destruct (Htext Ht) as [Hfill _].
    rewrite Hsrc in *. auto.
  - intros Habsent.
    destruct (mem name zero_fill_columns) eqn:Hz.
    + apply mem_In in Hz. right; left. split; [assumption|].
      destruct (Hzero Hz) as [Hint [Hlong [Hdouble _]]].
      destruct ty; try reflexivity; exfalso;
        [rewrite Hint in Habsent | rewrite Hlong in Habsent
         | rewrite Hdouble in Habsent]; try reflexivity; discriminate.
    + destruct (mem name text_fill_columns) eqn:Ht.
      * apply mem_In in Ht. right; right. split; [assumption|].
        intros ->. destruct (Htext Ht) as [Hfill _].
        rewrite Hfill in Habsent by reflexivity. discriminate.
      * left. apply filter_In. split; [assumption|]. now rewrite Hz, Ht.
Qed.

(** ** The cleaner is idempotent *)

Section Idempotence.

Variable E : Engine.
Variable df : DataFrame.
Hypothesis fill_columns_present : forallb (has_column df) fill_columns = true.

Let d : DataFrame := cleaned E df.

Lemma quantity_present_again : has_column df "quantity" = true.
Proof.
  rewrite forallb_forall in fill_columns_present.
  apply fill_columns_present, quantity_filled.
Qed.

Lemma has_column_cleaned (name : string) :
  has_column d name = true <-> In name (kept df).
Proof.
  unfold has_column, columns, d. cbn [schema cleaned].
  rewrite (cleaned_schema_names df quantity_present_again). apply mem_In.
Qed.

Lemma kept_cleaned : kept d = kept df.
Proof.
  transitivity (filter (fun name => mem name (kept df)) columns_to_keep).
  - rewrite <- (kept_unfold d). apply filter_ext. intros name.
    destruct (has_column d name) eqn:H.
    + apply has_column_cleaned, mem_In in H. now rewrite H.
    + destruct (mem name (kept df)) eqn:H'; [|reflexivity].
      apply mem_In, has_column_cleaned in H'. congruence.
  - rewrite <- (kept_unfold df). apply filter_ext_in. intros name Hin.
    rewrite (kept_unfold df).
    destruct (has_column df name) eqn:H.
    + apply mem_In, kept_In. auto.
    + apply mem_false. intros H'. apply kept_In in H'. destruct H'. congruence.
Qed.

Lemma fill_columns_present_again : forallb (has_column d) fill_columns = true.
Proof.
  apply forallb_forall. intros name Hin. apply has_column_cleaned, kept_In.
  rewrite forallb_forall in fill_columns_present.
  split; [now apply fill_columns_kept | auto].
Qed.

Lemma kept_fields_cleaned : kept_fields d = schema d.
Proof.
  unfold kept_fields. rewrite kept_cleaned.
  unfold d. cbn [schema cleaned].
  rewrite (cleaned_schema_map df quantity_present_again).
  apply map_ext_in. intros name Hin. f_equal.
  unfold type_of, d. cbn [schema cleaned].
  now rewrite (field_type_cleaned df quantity_present_again name Hin).
Qed.

Lemma cleaned_schema_cleaned : cleaned_schema d = schema d.
Proof.
  unfold cleaned_schema. rewrite kept_fields_cleaned.
  apply set_field_same. unfold d. cbn [schema cleaned].
  apply (field_type_cleaned df quantity_present_again),
        (quantity_kept df quantity_present_again).
Qed.

Lemma clean_row_cleaned (row : Row) : In row (rows d) -> clean_row E d row = row.
Proof.
  intros Hrow.
  pose proof quantity_present_again as Hq.
  destruct (cleaned_rows_source E df row Hrow) as [r [_ Hr]].
  assert (Hlen : List.length row = List.length (schema d)).
  { rewrite Hr. apply (clean_row_length E df Hq). }
  assert (Hnames : map fst (schema d) = kept df)
    by apply (cleaned_schema_names df Hq).
  unfold clean_row.
  rewrite cleaned_schema_cleaned, kept_fields_cleaned, kept_cleaned.
  rewrite <- Hnames.
  rewrite projection_identity by (rewrite ?Hnames; auto using kept_NoDup).
  assert (Hquantity : cast_int E (cell_of (schema d) row "quantity") =
                      cell_of (schema d) row "quantity").
  { rewrite Hr. unfold d. cbn [schema cleaned].
    rewrite (clean_row_cell E df Hq r "quantity" (quantity_kept df Hq)).
    change (cleaned_type df "quantity") with IntegerType.
    change (source_cell E df r "quantity")
      with (cast_int E (cell_of (schema df) r "quantity")).
    destruct (cast_int_shape E (cell_of (schema df) r "quantity")) as [->|[z ->]];
      reflexivity. }
  rewrite Hquantity, set_cell_same
    by (rewrite Hnames; apply (quantity_kept df Hq)).
  rewrite Hr. unfold clean_row. change (schema d) with (cleaned_schema df).
  rewrite fill_row_commute. now rewrite !fill_row_idempotent.
Qed.

Lemma cleaned_fixpoint : cleaned E d = d.
Proof.
  unfold cleaned at 1. rewrite cleaned_schema_cleaned.
  rewrite (map_ext_in _ (fun r => r) _ clean_row_cleaned), map_id.
  unfold d at 2 3. unfold cleaned. cbn [schema rows].
  rewrite dedup_of_distinct by apply dedup_distinct.
  reflexivity.
Qed.

End Idempotence.

(** C5.  Cleaning a cleaned frame returns it unchanged; when the first
    cleaning raises, so does the composition, with the same error. *)
Theorem clean_idempotent (E : Engine) (df : DataFrame) :
  (d <- clean E df ;; clean E d) = clean E df.
Proof.
  destruct (clean E df) as [d|e] eqn:Hclean; [|reflexivity].
  cbn [bind]. apply clean_inversion in Hclean as [Hall ->].
  rewrite (clean_ok E _ (fill_columns_present_again E df Hall)).
  f_equal. now apply cleaned_fixpoint.
Qed.

(** ** The outlier scan *)

Lemma Qlt_bool_iff (x y : Q) : Qlt_bool x y = true <-> x < y.
Proof.
  unfold Qlt_bool. rewrite negb_true_iff. split.
  - intros H. apply Qnot_le_lt. intros Hle.
    apply Qle_bool_iff in Hle. congruence.
  - intros H. destruct (Qle_bool y x) eqn:Hle; [|reflexivity].
    apply Qle_bool_iff in Hle. exfalso. now apply (Qlt_not_le x y).
Qed.

Lemma outside_true (E : Engine) (sch : Schema) (column : string) (lo hi : Q) (r : Row) :
  outside E sch column lo hi r = Some true <->
  exists v, number_of E (cell_of sch r column) = Some v /\ (v < lo \/ hi < v).
Proof.
  unfold outside, gt3, lt3, or3.
  destruct (number_of E (cell_of sch r column)) as [v|].
  - split.
    + intros H. exists v. split; [reflexivity|].
      destruct (Qlt_bool v lo) eqn:Hlo; [left; now apply Qlt_bool_iff|].
      destruct (Qlt_bool hi v) eqn:Hhi; [right; now apply Qlt_bool_iff|].
      discriminate.
    + intros [v' [[= <-] [H|H]]]; apply Qlt_bool_iff in H; rewrite H;
        [reflexivity | now destruct (Qlt_bool v lo)].
  - split; [discriminate | intros [v [H _]]; discriminate].
Qed.

Lemma filter_rows_In (cond : Row -> option bool) (df : DataFrame) (r : Row) :
  In r (rows (filter_rows cond df)) <-> In r (rows df) /\ cond r = Some true.
Proof.
  unfold filter_rows. simpl. rewrite filter_In.
  destruct (cond r) as [[|]|]; intuition discriminate.
Qed.

Lemma outliers_of_inversion (E : Engine) (df d : DataFrame) (column : string) :
  outliers_of E df column = Ok d ->
  sample_of E df column <> [] /\
  (exists ty, field_type column (schema df) = Some ty /\ is_numeric ty = true) /\
  d = filter_rows (outside E (schema df) column
                     (lower_fence E (first_quartile E df column)
                                    (third_quartile E df column))
                     (upper_fence E (first_quartile E df column)
                                    (third_quartile E df column)))
        df.
Proof.
  unfold outliers_of, approxQuantile, resolve, first_quartile, third_quartile.
  destruct (field_type column (schema df)) as [ty|]; [|discriminate].
  cbn [bind snd].
  destruct (is_numeric ty) eqn:Hnum; [|discriminate].
  destruct (sample_of E df column) as [|x sample] eqn:Hs; [discriminate|].
  cbn. intros [= <-]. repeat split; [discriminate | eauto].
Qed.

Lemma outliers_of_ok (E : Engine) (df : DataFrame) (column : string) (ty : DataType) :
  field_type column (schema df) = Some ty -> is_numeric ty = true ->
  sample_of E df column <> [] ->
  outliers_of E df column =
  Ok (filter_rows (outside E (schema df) column
                     (lower_fence E (first_quartile E df column)
                                    (third_quartile E df column))
                     (upper_fence E (first_quartile E df column)
                                    (third_quartile E df column)))
        df).
Proof.
  intros Hty Hnum Hs.
  unfold outliers_of, approxQuantile, resolve, first_quartile, third_quartile.
  rewrite Hty. cbn [bind snd]. rewrite Hnum.
  destruct (sample_of E df column) as [|x sample]; [congruence|reflexivity].
Qed.

(** A cast to double gives a double, so the sampled values and the quartile
    estimates are doubles. *)

Lemma number_of_double (E : Engine) (c : Cell) (v : Q) :
  number_of E c = Some v -> round E v == v.
Proof.
  destruct c as [[z|z|q|s]|]; simpl; try discriminate;
    try (intros [= <-]; apply round_idempotent).
  destruct (string_to_double E s); simpl; [|discriminate].
  intros [= <-]. apply round_idempotent.
Qed.

Lemma sample_of_doubles (E : Engine) (df : DataFrame) (column : string) (x : Q) :
  In x (sample_of E df column) -> round E x == x.
Proof.
  unfold sample_of. intros H. apply in_flat_map in H as [r [_ H]].
  destruct (number_of E (cell_of (schema df) r column)) as [v|] eqn:Hv;
    [|contradiction].
  destruct H as [<-|[]]. exact (number_of_double E _ Hv).
Qed.

Lemma quartiles_are_doubles (E : Engine) (df : DataFrame) (column : string) :
  round E (first_quartile E df column) == first_quartile E df column /\
  round E (third_quartile E df column) == third_quartile E df column.
Proof.
  split; apply quantile_is_double; apply sample_of_doubles.
Qed.

(** Rounding keeps signs, the quartile estimates are ordered, and so are the
    fences computed from them. *)

Lemma round_nonneg (E : Engine) (x : Q) : 0 <= x -> 0 <= round E x.
Proof.
  intros H. apply Qle_trans with (round E 0).
  - rewrite (round_zero E). apply Qle_refl.
  - now apply round_monotone.
Qed.

Lemma round_nonpos (E : Engine) (x : Q) : x <= 0 -> round E x <= 0.
Proof.
  intros H. apply Qle_trans with (round E 0).
  - now apply round_monotone.
  - rewrite (round_zero E). apply Qle_refl.
Qed.

Lemma quartiles_ordered (E : Engine) (df : DataFrame) (column : string) :
  first_quartile E df column <= third_quartile E df column.
Proof.
  unfold first_quartile, third_quartile.
  apply quantile_monotone; unfold Qle; simpl; lia.
Qed.

Lemma fence_margin_nonneg (E : Engine) (q1 q3 : Q) :
  q1 <= q3 -> 0 <= double_mul E (3 # 2) (double_sub E q3 q1).
Proof.
  intros H. unfold double_mul, double_sub.
  assert (Hiqr : 0 <= round E (q3 - q1)) by (apply round_nonneg; lra).
  apply round_nonneg. lra.
Qed.

Lemma fences_ordered (E : Engine) (q1 q3 : Q) :
  q1 <= q3 -> lower_fence E q1 q3 <= upper_fence E q1 q3.
Proof.
  intros H. pose proof (fence_margin_nonneg E H) as Hm.
  unfold lower_fence, upper_fence.
  unfold double_sub at 1. unfold double_add.
  apply round_monotone. lra.
Qed.

Lemma fences_enclose_quartiles (E : Engine) (q1 q3 : Q) :
  q1 <= q3 -> round E q1 == q1 -> round E q3 == q3 ->
  lower_fence E q1 q3 <= q1 /\ q3 <= upper_fence E q1 q3.
Proof.
  intros H H1 H3. pose proof (fence_margin_nonneg E H) as Hm.
  unfold lower_fence, upper_fence.
  unfold double_sub at 1. unfold double_add. split.
  - apply Qle_trans with (round E q1).
    + apply round_monotone. lra.
    + apply Qle_lteq. now right.
  - apply Qle_trans with (round E q3).
    + apply Qle_lteq. right. now symmetry.
    + apply round_monotone. lra.
Qed.

Lemma degenerate_fences (E : Engine) (q1 q3 : Q) :
  q3 - q1 == 0 -> round E q1 == q1 ->
  lower_fence E q1 q3 == q1 /\ upper_fence E q1 q3 == q1.
Proof.
  intros Hiqr H1.
  assert (H0 : round E (q3 - q1) == 0).
  { apply Qeq_trans with (round E 0); [now apply round_compat | apply round_zero]. }
  assert (Hm : double_mul E (3 # 2) (double_sub E q3 q1) == 0).
  { unfold double_mul, double_sub.
    apply Qeq_trans with (round E 0); [|apply round_zero].
    apply round_compat. rewrite H0. ring. }
  unfold lower_fence, upper_fence.
  unfold double_sub at 1. unfold double_add. split.
  - apply Qeq_trans with (round E q1); [|assumption].
    apply round_compat. rewrite Hm. ring.
  - apply Qeq_trans with (round E q1); [|assumption].
    apply round_compat. rewrite Hm. lra.
Qed.

(** C6.  When the scan of a column completes, its outlier set holds exactly
    the records whose value lies strictly below the lower bound or strictly
    above the upper bound that lines 88-90 compute, in double arithmetic,
    from the engine's estimates [Q1] and [Q3] for probabilities 0.25 and 0.75
    at relative error 0.01 over the column's values: [IQR] is the rounded
    [Q3 - Q1], the bounds are the rounded [Q1 - 1.5 IQR] and [Q3 + 1.5 IQR]
    with the product rounded first.  A value equal to a bound is not an
    outlier. *)
Theorem outliers_are_strictly_outside_fences (E : Engine) (df d : DataFrame)
    (column : string) :
  outliers_of E df column = Ok d ->
  exists q1 q3 iqr lower_bound upper_bound : Q,
    q1 = quantile E (sample_of E df column) (1 # 4) (round E (1 # 100)) /\
    q3 = quantile E (sample_of E df column) (3 # 4) (round E (1 # 100)) /\
    iqr = double_sub E q3 q1 /\
    lower_bound = double_sub E q1 (double_mul E (3 # 2) iqr) /\
    upper_bound = double_add E q3 (double_mul E (3 # 2) iqr) /\
    schema d = schema df /\
    (forall row, In row (rows d) <->
       In row (rows df) /\
       exists v, number_of E (cell_of (schema df) row column) = Some v /\
         (v < lower_bound \/ upper_bound < v)) /\
    (forall row v, number_of E (cell_of (schema df) row column) = Some v ->
       v == lower_bound \/ v == upper_bound ->
       ~ In row (rows d)).
Proof.
  intros H. apply outliers_of_inversion in H as [_ [_ ->]].
  pose proof (fences_ordered E (quartiles_ordered E df column)) as Hfences.
  exists (first_quartile E df column), (third_quartile E df column).
  do 3 eexists.
  do 5 (split; [reflexivity|]).
  fold (lower_fence E (first_quartile E df column) (third_quartile E df column)).
  fold (upper_fence E (first_quartile E df column) (third_quartile E df column)).
  set (lo := lower_fence _ _ _) in *. set (hi := upper_fence _ _ _) in *.
  split; [reflexivity|]. split.
  - intros row. rewrite filter_rows_In, outside_true. reflexivity.
  - intros row v Hv Heq Hin.
    apply filter_rows_In in Hin as [_ Hin].
    apply outside_true in Hin as [v' [Hv' Hout]].
    rewrite Hv in Hv'. injection Hv' as <-.
    destruct Heq as [Heq|Heq], Hout as [Hout|Hout]; rewrite Heq in Hout; lra.
Qed.

(** C10.  A record whose value in the scanned column is absent is never in
    that column's outlier set, whatever the fences are; this holds for every
    column and so for [nutriscore_score] and [ecoscore_score], the scanned
    columns that are not zero-filled. *)
Theorem absent_value_is_never_an_outlier (E : Engine) (df d : DataFrame)
    (column : string) (row : Row) :
  outliers_of E df column = Ok d -> In row (rows d) ->
  cell_of (schema df) row column <> None.
Proof.
  intros H Hin. apply outliers_of_inversion in H as [_ [_ ->]].
  apply filter_rows_In in Hin as [_ Hin].
  apply outside_true in Hin as [v [Hv _]].
  intros Hnone. rewrite Hnone in Hv. discriminate.
Qed.

Lemma scanned_columns_not_zero_filled :
  filter (fun column => negb (mem column zero_fill_columns)) numeric_columns =
  ["nutriscore_score"; "ecoscore_score"].
Proof. reflexivity. Qed.

Lemma sample_of_In (E : Engine) (df : DataFrame) (column : string) (r : Row) (v : Q) :
  In r (rows df) -> number_of E (cell_of (schema df) r column) = Some v ->
  In v (sample_of E df column).
Proof.
  intros Hr Hv. unfold sample_of. apply in_flat_map. exists r.
  split; [assumption|]. rewrite Hv. now left.
Qed.

(** C7.  When the two quartile estimates coincide, both fences collapse to
    that one value and every record whose value differs from it is an
    outlier; and when the estimates are sampled values and all values of the
    column are identical, the outlier set is empty. *)
Theorem degenerate_distribution (E : Engine) (df d : DataFrame) (column : string) :
  outliers_of E df column = Ok d ->
  (third_quartile E df column - first_quartile E df column == 0 ->
     lower_fence E (first_quartile E df column) (third_quartile E df column)
       == first_quartile E df column /\
     upper_fence E (first_quartile E df column) (third_quartile E df column)
       == first_quartile E df column /\
     forall row v, In row (rows df) ->
       number_of E (cell_of (schema df) row column) = Some v ->
       ~ v == first_quartile E df column -> In row (rows d)) /\
  (returns_sample_element E ->
     (exists c, forall x, In x (sample_of E df column) -> x == c) ->
     rows d = []).
Proof.
  intros H. apply outliers_of_inversion in H as [Hsample [_ ->]].
  assert (Hdouble : round E (first_quartile E df column)
                    == first_quartile E df column)
    by apply quartiles_are_doubles.
  set (q1 := first_quartile E df column) in *.
  set (q3 := third_quartile E df column) in *.
  split.
  - intros Hiqr. destruct (degenerate_fences E Hiqr Hdouble) as [Hlo Hhi].
    split; [assumption|]. split; [assumption|].
    intros row v Hrow Hv Hne.
    apply filter_rows_In. split; [assumption|].
    apply outside_true. exists v. split; [assumption|].
    rewrite Hlo, Hhi.
    destruct (Q_dec v q1) as [[Hlt|Hgt]|Heq]; [left; lra | right; lra | contradiction].
  - intros Hengine [c Hc].
    destruct (Hengine (sample_of E df column) (1 # 4) (round E (1 # 100)) Hsample
                (sample_of_doubles E df column))
      as [x1 [Hx1 Hq1]].
    destruct (Hengine (sample_of E df column) (3 # 4) (round E (1 # 100)) Hsample
                (sample_of_doubles E df column))
      as [x3 [Hx3 Hq3]].
    apply Hc in Hx1, Hx3.
    assert (H1 : q1 == c) by (unfold q1, first_quartile; now rewrite Hq1).
    assert (H3 : q3 == c) by (unfold q3, third_quartile; now rewrite Hq3).
    assert (Hiqr : q3 - q1 == 0) by lra.
    destruct (degenerate_fences E Hiqr Hdouble) as [Hlo Hhi].
    match goal with |- rows ?f = [] => destruct (rows f) as [|row l] eqn:Hrows end;
      [reflexivity|exfalso].
    assert (Hin : In row (rows (filter_rows
               (outside E (schema df) column (lower_fence E q1 q3)
                  (upper_fence E q1 q3))
               df))) by (rewrite Hrows; now left).
    apply filter_rows_In in Hin as [Hrow Hout].
    apply outside_true in Hout as [v [Hv Hout]].
    pose proof (Hc v (sample_of_In E df column row Hrow Hv)) as Hvc.
    rewrite Hlo, Hhi in Hout. lra.
Qed.

(** ** The two engines return sampled values *)

Lemma insert_sorted_In (x y : Q) (l : list Q) :
  In y (insert_sorted x l) -> y = x \/ In y l.
Proof.
  induction l as [|z l IH]; simpl.
  - intuition.
  - destruct (Qle_bool x z); simpl; intuition.
Qed.

Lemma sort_In (y : Q) (l : list Q) : In y (sort l) -> In y l.
Proof.
  induction l as [|x l IH]; simpl; [tauto|].
  intros H. apply insert_sorted_In in H as [->|H]; auto.
Qed.

Lemma nearest_rank_In (sample : list Q) (p err : Q) :
  sample <> [] -> exists x, In x sample /\ nearest_rank sample p err == x.
Proof.
  intros Hne. unfold nearest_rank.
  match goal with |- context [nth ?k ?l ?dflt] =>
    destruct (nth_in_or_default k l dflt) as [H|H] end.
  - eexists. split; [apply sort_In, H | reflexivity].
  - rewrite H. destruct sample as [|x sample]; [congruence|].
    exists x. split; [now left | reflexivity].
Qed.

Lemma reference_engine_returns_sample_element :
  returns_sample_element reference_engine.
Proof.
  intros sample p err Hne _. now apply nearest_rank_In.
Qed.

Lemma coarse_engine_returns_sample_element :
  returns_sample_element coarse_engine.
Proof.
  intros sample p err Hne _. now apply nearest_rank_In.
Qed.

(** The loop of lines 84-96 from any state: it adds, in order, one entry and
    one printout for each column before the first one whose body raises. *)
Lemma scan_loop_spec (E : Engine) (df : DataFrame) (columns : list string) (s : Scan) :
  exists (scanned rest : list string) (found : list (string * DataFrame)),
    columns = (scanned ++ rest)%list /\
    entries (fst (scan_loop E df columns s)) = (entries s ++ found)%list /\
    printed (fst (scan_loop E df columns s))
    = (printed s
       ++ map (fun entry => (fst entry, firstn 5 (rows (snd entry)))) found)%list /\
    map fst found = scanned /\
    (forall column o, In (column, o) found -> outliers_of E df column = Ok o) /\
    match snd (scan_loop E df columns s) with
    | None => rest = []
    | Some e => exists column rest',
        rest = column :: rest' /\ outliers_of E df column = Err e
    end.
Proof.
  revert s. induction columns as [|c cs IH]; intros s; cbn [scan_loop].
  - exists [], [], []. cbn. rewrite !app_nil_r. intuition.
  - destruct (outliers_of E df c) as [o|e] eqn:Ho.
    + destruct (IH {| entries := (entries s ++ [(c, o)])%list;
                      printed := (printed s ++ [(c, firstn 5 (rows o))])%list |})
        as [scanned [rest [found [-> [Hentries [Hprinted [Hnames [Hfound Hend]]]]]]]].
      exists (c :: scanned), rest, ((c, o) :: found).
      rewrite Hentries, Hprinted. cbn [entries printed map fst snd].
      rewrite <- !app_assoc. cbn [app].
      repeat split; [now rewrite Hnames | | assumption].
      intros column o' [[= <- <-]|Hin]; [assumption | now apply Hfound].
    + exists [], (c :: cs), []. cbn. rewrite !app_nil_r.
      repeat split; [intros ? ? [] | eauto].
Qed.

(** The dictionary has one entry per scanned column, each computed from the
    cleaned frame alone. *)
Lemma detect_outliers_entries (E : Engine) (df : DataFrame)
    (found : list (string * DataFrame)) :
  detect_outliers E df = Ok found ->
  map fst found = numeric_columns /\
  forall column d, In (column, d) found -> outliers_of E df column = Ok d.
Proof.
  unfold detect_outliers, scan.
  destruct (scan_loop_spec E df numeric_columns {| entries := []; printed := [] |})
    as [scanned [rest [found' [Hcolumns [Hentries [_ [Hnames [Hfound Hend]]]]]]]].
  destruct (scan_loop E df numeric_columns _) as [s [e|]]; [discriminate|].
  cbn [fst snd entries app] in *. intros [= <-]. subst rest.
  rewrite app_nil_r in Hcolumns. rewrite Hentries. split; [congruence|assumption].
Qed.

(** The scan raises as soon as one column's body does, and completes when
    none does. *)
Lemma detect_outliers_raises (E : Engine) (df : DataFrame) (e : Error) :
  detect_outliers E df = Err e ->
  exists column, In column numeric_columns /\ outliers_of E df column = Err e.
Proof.
  unfold detect_outliers, scan.
  destruct (scan_loop_spec E df numeric_columns {| entries := []; printed := [] |})
    as [scanned [rest [found' [Hcolumns [_ [_ [_ [_ Hend]]]]]]]].
  destruct (scan_loop E df numeric_columns _) as [s [e'|]]; [|discriminate].
  cbn [snd] in Hend. intros [= <-].
  destruct Hend as [column [rest' [-> Herr]]].
  exists column. split; [|assumption].
  rewrite Hcolumns. apply in_or_app. right. now left.
Qed.

Lemma detect_outliers_first_column (E : Engine) (df : DataFrame) (e : Error) :
  outliers_of E df "quantity" = Err e -> detect_outliers E df = Err e.
Proof.
  intros H. unfold detect_outliers, scan, numeric_columns.
  cbn [scan_loop]. now rewrite H.
Qed.

(** ** The main category *)

Lemma split_first (sep : ascii) (s : string) :
  exists first rest,
    split s sep = first :: rest /\
    contains sep first = false /\
    ((rest = [] /\ s = first) \/
     exists tail, s = (first ++ String sep tail)%string /\ rest = split tail sep).
Proof.
  induction s as [|c s IH]; simpl.
  - exists EmptyString, []. auto.
  - destruct (Ascii.eqb_spec c sep) as [->|Hne].
    + exists EmptyString, (split s sep).
      split; [reflexivity|]. split; [reflexivity|].
      right. exists s. split; reflexivity.
    + destruct IH as [first [rest [-> [Hfree Hshape]]]].
      exists (String c first), rest. split; [reflexivity|]. split.
      * simpl. rewrite Hfree. destruct (Ascii.eqb_spec c sep); [contradiction|reflexivity].
      * destruct Hshape as [[-> ->]|[tail [-> ->]]]; [now left|right].
        exists tail. split; reflexivity.
Qed.

(** ** The statements after the scan never run to completion

    [categories_tags], [energy_100g] and [main_category] are not among
    [columns_to_keep], so no cleaned frame has them. *)

Lemma resolve_missing (df : DataFrame) (name : string) :
  has_column df name = false -> resolve df name = Err (AnalysisException name).
Proof.
  unfold has_column, columns, resolve. intros H.
  destruct (field_type name (schema df)) as [ty|] eqn:Hty; [|reflexivity].
  assert (Hmem : mem name (map fst (schema df)) = true)
    by (apply field_type_mem; eauto).
  congruence.
Qed.

Lemma cleaned_frame_lacks (E : Engine) (df d : DataFrame) (name : string) :
  clean E df = Ok d -> ~ In name columns_to_keep -> has_column d name = false.
Proof.
  intros Hclean Hname. apply clean_inversion in Hclean as [Hall ->].
  destruct (has_column (cleaned E df) name) eqn:H; [|reflexivity].
  apply (has_column_cleaned E df Hall), kept_In in H. tauto.
Qed.

Lemma main_category_raises_after_clean (E : Engine) (df d : DataFrame) :
  clean E df = Ok d ->
  with_main_category E d = Err (AnalysisException "categories_tags").
Proof.
  intros H. unfold with_main_category. rewrite resolve_missing; [reflexivity|].
  apply (cleaned_frame_lacks _ _ H). simpl. intuition discriminate.
Qed.

Lemma nutrition_score_raises_after_clean (E : Engine) (df d : DataFrame) :
  clean E df = Ok d ->
  with_nutrition_score E d = Err (AnalysisException "energy_100g").
Proof.
  intros H. unfold with_nutrition_score. rewrite resolve_missing; [reflexivity|].
  apply (cleaned_frame_lacks _ _ H). simpl. intuition discriminate.
Qed.

Lemma aggregate_raises_after_clean (E : Engine) (df d : DataFrame) :
  clean E df = Ok d ->
  aggregate E d = Err (AnalysisException "main_category").
Proof.
  intros H. unfold aggregate. rewrite resolve_missing; [reflexivity|].
  apply (cleaned_frame_lacks _ _ H). simpl. intuition discriminate.
Qed.

Lemma script_always_raises (E : Engine) (df : DataFrame) :
  exists e, script E df = Err e.
Proof.
  unfold script. destruct (clean E df) as [d|e] eqn:Hclean;
    [|eexists; reflexivity].
  cbn [bind]. destruct (detect_outliers E d) as [found|e];
    [|eexists; reflexivity].
  cbn [bind]. rewrite (main_category_raises_after_clean _ _ Hclean).
  eexists; reflexivity.
Qed.

(** C1, at the failing input.  The expression of line 109 gives "beverages"
    for the tag "beverages,soda,sugary-drinks", the empty string for the
    empty tag and the absent marker for an absent tag.  But the table of the
    two drinks, which has [categories_tags], is cleaned into a frame that has
    not: the projection of line 60 dropped the column, line 109 raises and
    the script ends there, with no main category for any record. *)
Theorem main_category_raises_on_drinks :
  first_category reference_engine (Examples.str "beverages,soda,sugary-drinks")
    = Examples.str "beverages" /\
  first_category reference_engine (Examples.str EmptyString)
    = Examples.str EmptyString /\
  first_category reference_engine Examples.null = Examples.null /\
  has_column Examples.drinks "categories_tags" = true /\
  clean reference_engine Examples.drinks
    = Ok (cleaned reference_engine Examples.drinks) /\
  has_column (cleaned reference_engine Examples.drinks) "categories_tags" = false /\
  with_main_category reference_engine (cleaned reference_engine Examples.drinks)
    = Err (AnalysisException "categories_tags") /\
  script reference_engine Examples.drinks = Err (AnalysisException "categories_tags").
Proof.
  repeat split; vm_compute; reflexivity.
Qed.

(** C2, at the failing input.  The formula itself gives 115 for energy 100,
    fiber 5 and sugars 20, but on the frame the cleaner returns for the two
    snack products line 124 raises: [energy_100g] was dropped by the
    projection of line 60.  The script raises before it, at line 109. *)
Theorem nutrition_score_raises_on_snacks :
  nutrition_score reference_engine
    (Examples.dbl 100) (Examples.dbl 5) (Examples.dbl 20) = Examples.dbl 115 /\
  clean reference_engine Examples.snacks
    = Ok (cleaned reference_engine Examples.snacks) /\
  with_nutrition_score reference_engine (cleaned reference_engine Examples.snacks)
    = Err (AnalysisException "energy_100g") /\
  script reference_engine Examples.snacks = Err (AnalysisException "categories_tags").
Proof.
  repeat split; vm_compute; reflexivity.
Qed.

(** C8, at the failing input.  For the two snack products with energy 100 and
    200 the aggregation raises on the cleaned frame, which has neither
    [main_category] nor [energy_100g], and the script raises before reaching
    it.  On a frame that has the two columns the same statements report the
    mean 150 for "snacks". *)
Theorem aggregate_raises_on_snacks :
  aggregate reference_engine (cleaned reference_engine Examples.snacks)
    = Err (AnalysisException "main_category") /\
  script reference_engine Examples.snacks = Err (AnalysisException "categories_tags") /\
  exists d,
    (x <- with_main_category reference_engine Examples.snacks_unprojected ;;
     aggregate reference_engine x) = Ok d /\
    map (fun r => (cell_of (schema d) r "main_category",
                   cell_eqb (cell_of (schema d) r "avg_energy") (Examples.dbl 150)))
        (rows d) = [(Examples.str "snacks", true)].
Proof.
  split; [vm_compute; reflexivity|].
  split; [vm_compute; reflexivity|].
  eexists. split; vm_compute; reflexivity.
Qed.

(** * The theorems at work on the example tables *)

Import Examples.

(** The cleaned cracker record: ingredients, traces and Nutri-Score grade are
    "undefined", quantity (which did not parse) and fiber are 0. *)
Lemma clean_fills_typed_columns_witness :
  clean reference_engine snacks = Ok cleaned_snacks /\
  In cleaned_crackers (rows cleaned_snacks) /\
  field_type "quantity" (schema cleaned_snacks) = Some IntegerType /\
  (forall name, In name fill_columns ->
     exists ty, field_type name (schema cleaned_snacks) = Some ty) /\
  exists r, In r (rows snacks) /\
    forall name ty, field_type name (schema cleaned_snacks) = Some ty ->
      (In name zero_fill_columns ->
         (ty = IntegerType ->
            cell_of (schema cleaned_snacks) cleaned_crackers name
            = filled (VInt 0) (source_cell reference_engine snacks r name)) /\
         (ty = LongType ->
            cell_of (schema cleaned_snacks) cleaned_crackers name
            = filled (VLong 0) (source_cell reference_engine snacks r name)) /\
         (ty = DoubleType ->
            cell_of (schema cleaned_snacks) cleaned_crackers name
            = filled (VDouble 0) (source_cell reference_engine snacks r name)) /\
         (is_numeric ty = true ->
            cell_of (schema cleaned_snacks) cleaned_crackers name <> None) /\
         (is_numeric ty = false ->
            cell_of (schema cleaned_snacks) cleaned_crackers name
            = source_cell reference_engine snacks r name)) /\
      (In name text_fill_columns ->
         (ty = StringType ->
            cell_of (schema cleaned_snacks) cleaned_crackers name
            = filled (VStr "undefined") (source_cell reference_engine snacks r name) /\
            cell_of (schema cleaned_snacks) cleaned_crackers name <> None) /\
         (ty <> StringType ->
            cell_of (schema cleaned_snacks) cleaned_crackers name
            = source_cell reference_engine snacks r name)).
Proof.
  assert (H1 : clean reference_engine snacks = Ok cleaned_snacks)
    by (vm_compute; reflexivity).
  assert (H2 : In cleaned_crackers (rows cleaned_snacks)) by (vm_compute; auto).
  split; [exact H1|]. split; [exact H2|].
  exact (clean_fills_typed_columns reference_engine snacks cleaned_crackers H1 H2).
Defined.

(** The quantity "200 g" of the crackers does not cast: their cleaned record
    holds 0, that of the chips 150. *)
Lemma quantity_cast_failure_becomes_zero_witness :
  clean reference_engine snacks = Ok cleaned_snacks /\
  cast_int reference_engine (cell_of (schema snacks) crackers "quantity") = None /\
  cell_of (schema cleaned_snacks) cleaned_crackers "quantity" = Some (VInt 0) /\
  field_type "quantity" (schema cleaned_snacks) = Some IntegerType /\
  (forall r, In r (rows snacks) ->
     exists row, In row (rows cleaned_snacks) /\
       cell_of (schema cleaned_snacks) row "quantity" =
       Some (VInt match cast_int reference_engine
                          (cell_of (schema snacks) r "quantity") with
                  | Some (VInt z) => z
                  | _ => 0
                  end)) /\
  (forall row, In row (rows cleaned_snacks) ->
     exists z, cell_of (schema cleaned_snacks) row "quantity" = Some (VInt z)).
Proof.
  assert (H : clean reference_engine snacks = Ok cleaned_snacks)
    by (vm_compute; reflexivity).
  split; [exact H|].
  split; [vm_compute; reflexivity|]. split; [vm_compute; reflexivity|].
  exact (proj2 (proj2 (quantity_cast_failure_becomes_zero reference_engine snacks))
           cleaned_snacks H).
Defined.

Lemma clean_absent_only_where_unfilled_witness :
  clean reference_engine snacks = Ok cleaned_snacks /\
  unfilled_columns =
    ["serving_size"; "nutriscore_score"; "nova_group"; "ecoscore_score"] /\
  columns cleaned_snacks = filter (has_column snacks) columns_to_keep /\
  forall row, In row (rows cleaned_snacks) ->
    List.length row = List.length (schema cleaned_snacks) /\
    exists r, In r (rows snacks) /\
      forall name ty, In (name, ty) (schema cleaned_snacks) ->
        (forall v, source_cell reference_engine snacks r name = Some v ->
           cell_of (schema cleaned_snacks) row name = Some v) /\
        (In name zero_fill_columns ->
         source_cell reference_engine snacks r name = None ->
           (ty = IntegerType ->
              cell_of (schema cleaned_snacks) row name = Some (VInt 0)) /\
           (ty = LongType ->
              cell_of (schema cleaned_snacks) row name = Some (VLong 0)) /\
           (ty = DoubleType ->
              cell_of (schema cleaned_snacks) row name = Some (VDouble 0))) /\
        (In name text_fill_columns ->
         source_cell reference_engine snacks r name = None ->
           ty = StringType ->
           cell_of (schema cleaned_snacks) row name = Some (VStr "undefined")) /\
        (cell_of (schema cleaned_snacks) row name = None ->
           In name unfilled_columns \/
           (In name zero_fill_columns /\ is_numeric ty = false) \/
           (In name text_fill_columns /\ ty <> StringType)).
Proof.
  assert (H : clean reference_engine snacks = Ok cleaned_snacks)
    by (vm_compute; reflexivity).
  split; [exact H|].
  exact (clean_absent_only_where_unfilled reference_engine snacks H).
Defined.

(** [serving_size] is kept but not filled: the crackers still have none. *)
Lemma absent_serving_size_survives_cleaning :
  exists d row,
    clean reference_engine snacks = Ok d /\ In row (rows d) /\
    has_column d "serving_size" = true /\
    cell_of (schema d) row "serving_size" = None.
Proof.
  exists cleaned_snacks, cleaned_crackers.
  repeat split; vm_compute; auto.
Qed.

(** [serving_quantity] is in the numeric fill list, but where it is typed as
    a string the fill with 0 passes it by. *)
Lemma absent_serving_quantity_survives_cleaning :
  exists d row,
    clean reference_engine snacks_without_servings = Ok d /\ In row (rows d) /\
    In "serving_quantity" zero_fill_columns /\
    field_type "serving_quantity" (schema d) = Some StringType /\
    cell_of (schema d) row "serving_quantity" = None.
Proof.
  exists (cleaned reference_engine snacks_without_servings),
         (clean_row reference_engine snacks_without_servings crackers).
  repeat split; vm_compute; auto.
Qed.

(** Quartile estimates 2 and 4 over 1, 2, 3, 4, 100 and an absent score:
    the bounds are -1 and 7 and the outlier set is the record with 100. *)
Lemma outliers_are_strictly_outside_fences_witness :
  outliers_of reference_engine spread "nutriscore_score" = Ok (scores [int 100]) /\
  exists q1 q3 iqr lower_bound upper_bound : Q,
    q1 = quantile reference_engine
           (sample_of reference_engine spread "nutriscore_score") (1 # 4)
           (round reference_engine (1 # 100)) /\
    q3 = quantile reference_engine
           (sample_of reference_engine spread "nutriscore_score") (3 # 4)
           (round reference_engine (1 # 100)) /\
    iqr = double_sub reference_engine q3 q1 /\
    lower_bound
    = double_sub reference_engine q1 (double_mul reference_engine (3 # 2) iqr) /\
    upper_bound
    = double_add reference_engine q3 (double_mul reference_engine (3 # 2) iqr) /\
    schema (scores [int 100]) = schema spread /\
    (forall row, In row (rows (scores [int 100])) <->
       In row (rows spread) /\
       exists v,
         number_of reference_engine (cell_of (schema spread) row "nutriscore_score")
         = Some v /\
         (v < lower_bound \/ upper_bound < v)) /\
    (forall row v,
       number_of reference_engine (cell_of (schema spread) row "nutriscore_score")
       = Some v ->
       v == lower_bound \/ v == upper_bound ->
       ~ In row (rows (scores [int 100]))).
Proof.
  assert (H : outliers_of reference_engine spread "nutriscore_score"
              = Ok (scores [int 100])) by (vm_compute; reflexivity).
  split; [exact H|].
  exact (outliers_are_strictly_outside_fences
           reference_engine spread "nutriscore_score" H).
Defined.

(** Rounding moves the bounds: with quartile estimates 2 and 3 the upper
    bound in exact arithmetic is 4.5, and the 5 is an outlier; rounded to
    integers the bound is 5, and it is not. *)
Lemma rounding_moves_the_bounds :
  outliers_of reference_engine clustered "nutriscore_score" = Ok (scores [int 5]) /\
  upper_fence reference_engine 2 3 == 9 # 2 /\
  outliers_of coarse_engine clustered "nutriscore_score" = Ok (scores []) /\
  upper_fence coarse_engine 2 3 == 5.
Proof.
  repeat split; vm_compute; reflexivity.
Qed.

Lemma absent_value_is_never_an_outlier_witness :
  outliers_of reference_engine spread "nutriscore_score" = Ok (scores [int 100]) /\
  In [int 100] (rows (scores [int 100])) /\
  cell_of (schema spread) [int 100] "nutriscore_score" <> None.
Proof.
  assert (H1 : outliers_of reference_engine spread "nutriscore_score"
               = Ok (scores [int 100])) by (vm_compute; reflexivity).
  assert (H2 : In [int 100] (rows (scores [int 100]))) by (simpl; auto).
  split; [exact H1|]. split; [exact H2|].
  exact (@absent_value_is_never_an_outlier
           reference_engine spread _ "nutriscore_score" _ H1 H2).
Defined.

(** Quartiles 5 and 5 with one 9: the 9 is flagged; all values 5: nothing is. *)
Lemma degenerate_distribution_witness :
  outliers_of reference_engine peaked "nutriscore_score" = Ok (scores [int 9]) /\
  third_quartile reference_engine peaked "nutriscore_score"
  - first_quartile reference_engine peaked "nutriscore_score" == 0 /\
  In [int 9] (rows (scores [int 9])) /\
  outliers_of reference_engine constant "nutriscore_score" = Ok (scores []) /\
  rows (scores []) = [].
Proof.
  assert (H1 : outliers_of reference_engine peaked "nutriscore_score"
               = Ok (scores [int 9])) by (vm_compute; reflexivity).
  assert (H2 : third_quartile reference_engine peaked "nutriscore_score"
               - first_quartile reference_engine peaked "nutriscore_score" == 0)
    by (vm_compute; reflexivity).
  assert (H3 : outliers_of reference_engine constant "nutriscore_score"
               = Ok (scores [])) by (vm_compute; reflexivity).
  split; [exact H1|]. split; [exact H2|]. split.
  - apply (proj1 (degenerate_distribution
                    reference_engine peaked "nutriscore_score" H1) H2)
      with (v := 9).
    + simpl; auto 10.
    + reflexivity.
    + vm_compute. discriminate.
  - split; [exact H3|].
    apply (proj2 (degenerate_distribution
                    reference_engine constant "nutriscore_score" H3)).
    + apply reference_engine_returns_sample_element.
    + exists 5. vm_compute. intuition (subst; reflexivity).
Defined.

(** * Further properties of the script's operations *)

(** ** Duplicate removal *)

(** X1.  dropDuplicates keeps the schema and exactly one record of each class
    of equal records: the kept records are records of the input, no two of
    them are equal, every record of the input is equal to a kept one, and
    dropping duplicates again changes nothing. *)
Theorem dropDuplicates_keeps_one_of_each (df : DataFrame) :
  schema (dropDuplicates df) = schema df /\
  distinct_rows (rows (dropDuplicates df)) /\
  (forall r, In r (rows (dropDuplicates df)) -> In r (rows df)) /\
  (forall r, In r (rows df) ->
     exists r', In r' (rows (dropDuplicates df)) /\ row_eqb r' r = true) /\
  dropDuplicates (dropDuplicates df) = dropDuplicates df.
Proof.
  unfold dropDuplicates. simpl.
  split; [reflexivity|]. split; [apply dedup_distinct|].
  split; [intros r; apply dedup_incl|]. split; [intros r; apply dedup_represents|].
  f_equal. apply dedup_of_distinct, dedup_distinct.
Qed.

(** ** The projection of line 60 *)

Lemma type_of_present (df : DataFrame) (name : string) :
  has_column df name = true ->
  field_type name (schema df) = Some (type_of df name).
Proof.
  intros H. apply field_type_mem in H as [ty Hty].
  unfold type_of. now rewrite Hty.
Qed.

(** X2.  The projection of line 60, which first filters [columns_to_keep] by
    the input's columns, never raises: it returns the kept columns in the
    order of [columns_to_keep], with their types, and every record projected
    onto them. *)
Theorem projection_never_raises (df : DataFrame) :
  exists d, select (filter (has_column df) columns_to_keep) df = Ok d /\
    columns d = filter (has_column df) columns_to_keep /\
    (forall name, In name (columns d) ->
       field_type name (schema d) = field_type name (schema df)) /\
    rows d = map (fun r => map (cell_of (schema df) r) (columns d)) (rows df).
Proof.
  eexists. split; [apply select_kept|].
  unfold columns. cbn [schema rows]. rewrite kept_fields_names, kept_unfold.
  split; [reflexivity|]. split; [|reflexivity].
  intros name Hin. unfold kept_fields. rewrite (field_type_map _ _ _ Hin).
  symmetry. apply type_of_present. now apply kept_In in Hin.
Qed.

(** ** When the cleaner raises *)

(** X3.  An input without a [quantity] column makes the cleaner raise at the
    cast of line 61: the projection skips the missing column silently, the
    cast does not. *)
Theorem clean_raises_without_quantity (E : Engine) (df : DataFrame) :
  has_column df "quantity" = false ->
  clean E df = Err (AnalysisException "quantity").
Proof.
  intros H. rewrite clean_steps. unfold cast_quantity.
  rewrite resolve_missing; [reflexivity|].
  match goal with |- ?lhs = false => destruct lhs eqn:Hq; [|reflexivity] end.
  apply has_column_projected, kept_In in Hq. destruct Hq. congruence.
Qed.

(** X4.  The cleaner completes exactly when the input has every column named
    by the two fill lists ([quantity] among them); which of the other kept
    columns it has does not matter. *)
Theorem clean_completes_iff (E : Engine) (df : DataFrame) :
  (exists d, clean E df = Ok d) <-> forallb (has_column df) fill_columns = true.
Proof.
  split.
  - intros [d H]. now apply clean_inversion in H.
  - intros H. eexists. now apply clean_ok.
Qed.

(** X5.  Cleaning retypes [quantity] as an integer column and nothing else:
    every other column of the cleaned frame has the type it has in the
    input. *)
Theorem clean_retypes_only_quantity (E : Engine) (df d : DataFrame) :
  clean E df = Ok d ->
  field_type "quantity" (schema d) = Some IntegerType /\
  forall name, In name (columns d) -> name <> "quantity" ->
    field_type name (schema d) = field_type name (schema df).
Proof.
  intros H. apply clean_inversion in H as [Hall ->].
  assert (Hq : has_column df "quantity" = true).
  { rewrite forallb_forall in Hall. apply Hall, quantity_filled. }
  unfold columns. cbn [schema cleaned]. split.
  - apply (field_type_cleaned df Hq), (quantity_kept df Hq).
  - intros name Hin Hne. rewrite (cleaned_schema_names df Hq) in Hin.
    rewrite (field_type_cleaned df Hq name Hin). unfold cleaned_type.
    destruct (String.eqb_spec name "quantity"); [contradiction|].
    symmetry. apply type_of_present. now apply kept_In in Hin.
Qed.

(** ** What the cleaner leaves alone *)

Lemma unfilled_not_filled (name : string) :
  In name unfilled_columns ->
  ~ In name zero_fill_columns /\ ~ In name text_fill_columns.
Proof.
  intros H. apply filter_In in H as [_ H].
  apply negb_true_iff, orb_false_iff in H as [Hz Ht].
  split; now apply mem_false.
Qed.

(** X6.  Cleaning never overwrites a value: every cleaned record comes from a
    record of the input whose present values, in every kept column other
    than the recast [quantity], are the cleaned record's values; and in the
    four kept columns outside the fill lists the cell is the source cell,
    absent when that was absent. *)
Theorem clean_keeps_present_values (E : Engine) (df d : DataFrame) (row : Row) :
  clean E df = Ok d -> In row (rows d) ->
  exists r, In r (rows df) /\
    forall name, In name (columns d) -> name <> "quantity" ->
      (forall v, cell_of (schema df) r name = Some v ->
         cell_of (schema d) row name = Some v) /\
      (In name unfilled_columns ->
         cell_of (schema d) row name = cell_of (schema df) r name).
Proof.
  intros Hclean Hrow. apply clean_inversion in Hclean as [Hall ->].
  assert (Hq : has_column df "quantity" = true).
  { rewrite forallb_forall in Hall. apply Hall, quantity_filled. }
  apply cleaned_rows_source in Hrow as [r [Hr ->]].
  exists r. split; [assumption|].
  unfold columns. cbn [schema cleaned]. rewrite (cleaned_schema_names df Hq).
  intros name Hin Hne. rewrite (clean_row_cell E df Hq r name Hin).
  unfold source_cell.
  destruct (String.eqb_spec name "quantity"); [contradiction|].
  split.
  - intros v ->. reflexivity.
  - intros Hun. apply unfilled_not_filled in Hun as [Hz Ht].
    rewrite (@fill_cell_skips (FillNumber 0)) by now left.
    now rewrite (@fill_cell_skips (FillString "undefined")) by now left.
Qed.

(** X7.  Cleaning never adds a record, and it returns no record only for an
    input without records. *)
Theorem clean_never_adds_records (E : Engine) (df d : DataFrame) :
  clean E df = Ok d ->
  (List.length (rows d) <= List.length (rows df))%nat /\
  (rows d = [] <-> rows df = []).
Proof.
  intros H. apply clean_inversion in H as [_ ->]. cbn [rows cleaned]. split.
  - eapply Nat.le_trans; [apply dedup_length|]. now rewrite length_map.
  - destruct (rows df) as [|r l]; simpl; split; congruence.
Qed.

Lemma fill_columns_NoDup : NoDup fill_columns.
Proof.
  repeat (constructor; [simpl; intuition discriminate|]). constructor.
Qed.

(** X8.  A cleaned frame has at least the 17 columns of the fill lists and at
    most the 21 of [columns_to_keep]. *)
Theorem cleaned_column_count (E : Engine) (df d : DataFrame) :
  clean E df = Ok d ->
  (17 <= List.length (columns d) <= 21)%nat.
Proof.
  intros H. apply clean_inversion in H as [Hall ->].
  assert (Hq : has_column df "quantity" = true).
  { rewrite forallb_forall in Hall. apply Hall, quantity_filled. }
  unfold columns. cbn [schema cleaned]. rewrite (cleaned_schema_names df Hq).
  split.
  - change 17%nat with (List.length fill_columns).
    apply NoDup_incl_length; [apply fill_columns_NoDup|].
    intros name Hin. apply kept_In. rewrite forallb_forall in Hall.
    split; [now apply fill_columns_kept | auto].
  - rewrite <- kept_unfold.
    change 21%nat with (List.length columns_to_keep). apply filter_length_le.
Qed.

(** ** na.fill *)

Lemma na_fill_has_column (v : FillValue) (subset : list string) (df d : DataFrame)
    (name : string) :
  na_fill v subset df = Ok d -> has_column d name = has_column df name.
Proof.
  intros H. pose proof (na_fill_inversion _ _ _ H) as Hs.
  rewrite (na_fill_ok _ _ _ Hs) in H. injection H as <-. reflexivity.
Qed.

(** X9.  A fill is idempotent: filling the filled frame again with the same
    value and columns returns it unchanged (and a fill that raises, raises
    the same error in the composition). *)
Theorem na_fill_idempotent (v : FillValue) (subset : list string) (df : DataFrame) :
  (d <- na_fill v subset df ;; na_fill v subset d) = na_fill v subset df.
Proof.
  destruct (na_fill v subset df) as [d|e] eqn:H; [|reflexivity]. cbn [bind].
  pose proof (na_fill_inversion _ _ _ H) as Hs.
  rewrite (na_fill_ok _ _ _ Hs) in H. injection H as <-.
  rewrite na_fill_ok by exact Hs. cbn [schema rows].
  do 2 f_equal. rewrite map_map. apply map_ext. intros r.
  apply fill_row_idempotent.
Qed.

(** X10.  The numeric fill and the string fill commute: on a frame where the
    names of both lists resolve, the two orders give the same frame. *)
Theorem fills_commute (z : Z) (s : string) (zs ss : list string) (df : DataFrame) :
  forallb (has_column df) zs = true -> forallb (has_column df) ss = true ->
  (d <- na_fill (FillNumber z) zs df ;; na_fill (FillString s) ss d) =
  (d <- na_fill (FillString s) ss df ;; na_fill (FillNumber z) zs d).
Proof.
  intros Hz Hs.
  rewrite (na_fill_ok (FillNumber z) _ _ Hz), (na_fill_ok (FillString s) _ _ Hs).
  cbn [bind]. rewrite !na_fill_ok by assumption. cbn [schema rows].
  do 2 f_equal. rewrite !map_map. apply map_ext. intros r.
  symmetry. apply fill_row_commute.
Qed.

(** ** cast("int") *)

Lemma wrap_32_spec (z : Z) :
  int32 (wrap 32 z) /\ ((wrap 32 z - z) mod 2 ^ 32 = 0)%Z /\
  (int32 z -> wrap 32 z = z).
Proof.
  unfold wrap, int32.
  change (2 ^ (32 - 1))%Z with 2147483648%Z.
  change (2 ^ 31)%Z with 2147483648%Z.
  change (2 ^ 32)%Z with 4294967296%Z.
  pose proof (Z.mod_pos_bound (z + 2147483648) 4294967296 eq_refl) as Hb.
  pose proof (Z.div_mod (z + 2147483648) 4294967296) as Hd.
  split; [lia|]. split.
  - replace ((z + 2147483648) mod 4294967296 - 2147483648 - z)%Z
      with (- ((z + 2147483648) / 4294967296) * 4294967296)%Z by lia.
    apply Z.mod_mul. discriminate.
  - intros Hr. rewrite Z.mod_small by lia. lia.
Qed.

Lemma truncate_toward_zero (q : Q) :
  (0 <= q -> 0 <= inject_Z (truncate q) <= q) /\
  (q <= 0 -> q <= inject_Z (truncate q) <= 0).
Proof.
  destruct q as [a b]. unfold truncate, Qle, inject_Z. simpl.
  rewrite !Z.mul_1_r.
  assert (Hb : Z.pos b <> 0%Z) by discriminate.
  split; intros Ha.
  - pose proof (Z.mul_quot_le a (Z.pos b) Ha Hb). nia.
  - pose proof (Z.mul_quot_ge a (Z.pos b) Ha Hb). nia.
Qed.

(** X11.  Casting to int never raises and always lands in the 32-bit range:
    the result is the absent marker or an integer that fits 32 bits (for an
    integer cell, when the cell's own value fits).  A long is reduced modulo
    2^32 and a double is truncated towards zero and clamped, both unchanged
    when they already fit.  Only the absent marker and strings (those that
    do not parse, or parse to an integer that does not fit) give the absent
    marker. *)
Theorem cast_int_fits_32_bits (E : Engine) (c : Cell) :
  (forall z, c = Some (VInt z) -> int32 z) ->
  (cast_int E c = None \/
   exists z', cast_int E c = Some (VInt z') /\ int32 z') /\
  (forall z, c = Some (VLong z) ->
     exists z', cast_int E c = Some (VInt z') /\
       ((z' - z) mod 2 ^ 32 = 0)%Z /\ (int32 z -> z' = z)) /\
  (forall q, c = Some (VDouble q) ->
     exists z', cast_int E c = Some (VInt z') /\
       (int32 (truncate q) -> z' = truncate q) /\
       (0 <= q -> 0 <= inject_Z (truncate q) <= q) /\
       (q <= 0 -> q <= inject_Z (truncate q) <= 0)) /\
  (forall s z, c = Some (VStr s) -> string_to_int E s = Some z ->
     (int32 z -> cast_int E c = Some (VInt z)) /\
     (~ int32 z -> cast_int E c = None)) /\
  (cast_int E c = None ->
     c = None \/
     exists s, c = Some (VStr s) /\
       forall z, string_to_int E s = Some z -> ~ int32 z).
Proof.
  intros Hint.
  assert (Hsat : forall z, int32 (saturate 32 z) /\ (int32 z -> saturate 32 z = z)).
  { intros z. unfold saturate, int32.
    change (2 ^ (32 - 1))%Z with 2147483648%Z.
    change (2 ^ 31)%Z with 2147483648%Z. lia. }
  assert (Hfits : forall z, fits_int z = true <-> int32 z).
  { intros z. unfold fits_int, int32.
    rewrite andb_true_iff, !Z.leb_le. reflexivity. }
  split; [|split; [|split; [|split]]].
  - destruct c as [[z|z|q|s]|]; simpl.
    + right. exists z. split; [reflexivity | now apply Hint].
    + right. exists (wrap 32 z). split; [reflexivity | apply wrap_32_spec].
    + right. exists (saturate 32 (truncate q)). split; [reflexivity | apply Hsat].
    + destruct (string_to_int E s) as [z|]; [|now left].
      destruct (fits_int z) eqn:Hz; [|now left].
      right. exists z. split; [reflexivity | now apply Hfits].
    + now left.
  - intros z ->. exists (wrap 32 z). split; [reflexivity | apply wrap_32_spec].
  - intros q ->. exists (saturate 32 (truncate q)). split; [reflexivity|].
    split; [apply Hsat | apply truncate_toward_zero].
  - intros s z -> Hz. simpl. rewrite Hz.
    destruct (fits_int z) eqn:Hf; split; intros Hr; try reflexivity.
    + apply Hfits in Hf. contradiction.
    + apply Hfits in Hr. congruence.
  - destruct c as [[z|z|q|s]|]; simpl; try discriminate; [|now left].
    intros Hnone. right. exists s. split; [reflexivity|].
    intros z Hz. rewrite Hz in Hnone.
    destruct (fits_int z) eqn:Hf; [discriminate|].
    intros Hr. apply Hfits in Hr. congruence.
Qed.

(** ** The scan's edge cases *)

Lemma sample_of_all_absent (E : Engine) (df : DataFrame) (column : string) :
  (forall r, In r (rows df) -> cell_of (schema df) r column = None) ->
  sample_of E df column = [].
Proof.
  unfold sample_of. induction (rows df) as [|r l IH]; simpl; [reflexivity|].
  intros H. rewrite (H r) by now left. simpl. apply IH. auto.
Qed.

Lemma outliers_of_no_value (E : Engine) (df : DataFrame) (column : string)
    (ty : DataType) :
  field_type column (schema df) = Some ty -> is_numeric ty = true ->
  sample_of E df column = [] ->
  outliers_of E df column = Err IndexError.
Proof.
  intros Hty Hnum Hs. unfold outliers_of, approxQuantile, resolve.
  rewrite Hty. cbn [bind snd]. now rewrite Hnum, Hs.
Qed.

(** X13.  Scanning a numeric column in which no record has a value (in
    particular any column of a frame without records) raises IndexError:
    the quantile list comes back empty and line 87 indexes it. *)
Theorem scan_of_valueless_column_raises (E : Engine) (df : DataFrame)
    (column : string) (ty : DataType) :
  field_type column (schema df) = Some ty -> is_numeric ty = true ->
  (forall r, In r (rows df) -> cell_of (schema df) r column = None) ->
  outliers_of E df column = Err IndexError.
Proof.
  intros Hty Hnum Habsent.
  eapply outliers_of_no_value; eauto using sample_of_all_absent.
Qed.

(** X14.  The loop of lines 84-96 stops at the first column whose scan raises
    and keeps what it did before: the dictionary holds the columns scanned
    before that one, in the order of [numeric_columns], each with its
    outlier set computed from the same frame, and for each of them the name
    and the first five outliers have been printed.  When no column raises
    these are all twelve columns. *)
Theorem scan_stops_at_first_failure (E : Engine) (df : DataFrame) :
  exists scanned rest : list string,
    numeric_columns = (scanned ++ rest)%list /\
    map fst (entries (fst (scan E df))) = scanned /\
    (forall column o, In (column, o) (entries (fst (scan E df))) ->
       outliers_of E df column = Ok o) /\
    printed (fst (scan E df))
    = map (fun entry => (fst entry, firstn 5 (rows (snd entry))))
        (entries (fst (scan E df))) /\
    match snd (scan E df) with
    | None =>
        rest = [] /\ detect_outliers E df = Ok (entries (fst (scan E df)))
    | Some e =>
        (exists column rest',
           rest = column :: rest' /\ outliers_of E df column = Err e) /\
        detect_outliers E df = Err e
    end.
Proof.
  unfold detect_outliers, scan.
  destruct (scan_loop_spec E df numeric_columns {| entries := []; printed := [] |})
    as [scanned [rest [found [Hcolumns [Hentries [Hprinted [Hnames [Hfound Hend]]]]]]]].
  exists scanned, rest.
  destruct (scan_loop E df numeric_columns _) as [s [e|]];
    cbn [fst snd entries printed app] in *;
    rewrite Hentries, Hprinted; repeat split; auto.
Qed.

Lemma cleaned_quantity_cell (E : Engine) (df : DataFrame) (row : Row) :
  has_column df "quantity" = true -> In row (rows (cleaned E df)) ->
  exists z, cell_of (cleaned_schema df) row "quantity" = Some (VInt z).
Proof.
  intros Hq Hrow. apply cleaned_rows_source in Hrow as [r [_ ->]].
  rewrite (clean_row_cell E df Hq r "quantity" (quantity_kept df Hq)).
  change (cleaned_type df "quantity") with IntegerType.
  change (source_cell E df r "quantity")
    with (cast_int E (cell_of (schema df) r "quantity")).
  destruct (cast_int_shape E (cell_of (schema df) r "quantity")) as [->|[z ->]];
    eexists; reflexivity.
Qed.

(** X15.  On a cleaned frame the scan of [quantity], the first column
    scanned, completes exactly when the input has a record; for an input
    without records the scan, and with it the script, raises IndexError. *)
Theorem empty_table_makes_the_scan_raise (E : Engine) (df d : DataFrame) :
  clean E df = Ok d ->
  ((exists o, outliers_of E d "quantity" = Ok o) <-> rows df <> []) /\
  (rows df = [] ->
     detect_outliers E d = Err IndexError /\ script E df = Err IndexError).
Proof.
  intros Hclean. pose proof Hclean as H.
  apply clean_inversion in H as [Hall ->].
  assert (Hq : has_column df "quantity" = true).
  { rewrite forallb_forall in Hall. apply Hall, quantity_filled. }
  assert (Hty : field_type "quantity" (schema (cleaned E df)) = Some IntegerType)
    by apply (field_type_cleaned df Hq), (quantity_kept df Hq).
  assert (Hempty : rows df = [] ->
            outliers_of E (cleaned E df) "quantity" = Err IndexError).
  { intros Hrows. apply (outliers_of_no_value E _ _ Hty eq_refl).
    apply sample_of_all_absent. cbn [rows cleaned]. rewrite Hrows. simpl. tauto. }
  split; [split|].
  - intros [o Ho] Hrows. rewrite (Hempty Hrows) in Ho. discriminate.
  - intros Hrows. eexists. apply (outliers_of_ok E _ _ Hty eq_refl).
    destruct (rows (cleaned E df)) as [|row l] eqn:Hd.
    + exfalso. apply Hrows. cbn [rows cleaned] in Hd.
      destruct (rows df); [reflexivity | discriminate].
    + assert (Hrow : In row (rows (cleaned E df))) by (rewrite Hd; now left).
      destruct (cleaned_quantity_cell E df row Hq Hrow) as [z Hz].
      intros Hs.
      assert (Hin : In (round E (inject_Z z))
                       (sample_of E (cleaned E df) "quantity")).
      { apply (sample_of_In E (cleaned E df) "quantity" row Hrow).
        cbn [schema cleaned]. now rewrite Hz. }
      rewrite Hs in Hin. contradiction.
  - intros Hrows.
    assert (Hscan : detect_outliers E (cleaned E df) = Err IndexError).
    { apply detect_outliers_first_column, Hempty, Hrows. }
    split; [exact Hscan|]. unfold script. rewrite Hclean. cbn [bind].
    now rewrite Hscan.
Qed.

(** X16.  A record whose value lies between the two quartile estimates, ends
    included, is never an outlier. *)
Theorem values_between_quartiles_are_not_outliers (E : Engine)
    (df d : DataFrame) (column : string) (row : Row) (v : Q) :
  outliers_of E df column = Ok d ->
  number_of E (cell_of (schema df) row column) = Some v ->
  first_quartile E df column <= v -> v <= third_quartile E df column ->
  ~ In row (rows d).
Proof.
  intros H Hv Hlo Hhi Hin. apply outliers_of_inversion in H as [_ [_ ->]].
  apply filter_rows_In in Hin as [_ Hout].
  apply outside_true in Hout as [v' [Hv' Hout]].
  rewrite Hv in Hv'. injection Hv' as <-.
  destruct (quartiles_are_doubles E df column) as [H1 H3].
  destruct (fences_enclose_quartiles E (Qle_trans _ _ _ Hlo Hhi) H1 H3)
    as [Hlower Hupper].
  lra.
Qed.

(** ** split *)

Lemma split_nonempty (s : string) (sep : ascii) : split s sep <> [].
Proof.
  destruct (split_first sep s) as [first [rest [-> _]]]. discriminate.
Qed.

(** X17.  Splitting loses nothing: joining the pieces with the separator
    gives the string back, no piece contains the separator, and there is one
    piece more than there are separators in the string (so always at least
    one, and [getItem(0)] never falls outside the array). *)
Theorem split_join (s : string) (sep : ascii) :
  String.concat (String sep EmptyString) (split s sep) = s /\
  Forall (fun piece => contains sep piece = false) (split s sep) /\
  List.length (split s sep) =
  S (List.length (filter (Ascii.eqb sep) (list_ascii_of_string s))).
Proof.
  induction s as [|c s IH]; simpl.
  - repeat split. repeat constructor.
  - destruct IH as [IHjoin [IHfree IHlen]].
    pose proof (split_nonempty s sep) as Hne.
    destruct (Ascii.eqb_spec c sep) as [->|Hc].
    + rewrite Ascii.eqb_refl. simpl.
      destruct (split s sep) as [|piece pieces] eqn:Hs; [congruence|].
      split; [simpl in *; now rewrite IHjoin|].
      split; [constructor; auto | simpl in *; now rewrite IHlen].
    + destruct (Ascii.eqb_spec sep c) as [->|_]; [congruence|].
      destruct (split s sep) as [|piece pieces] eqn:Hs; [congruence|].
      pose proof (Forall_inv IHfree) as Hfree.
      pose proof (Forall_inv_tail IHfree) as Hrest.
      split.
      * simpl in *. destruct pieces; simpl in *; now rewrite IHjoin.
      * split; [|exact IHlen].
        constructor; [|assumption]. simpl. rewrite Hfree.
        destruct (Ascii.eqb_spec c sep); [contradiction|reflexivity].
Qed.

(** ** The nutrition score *)

Lemma arith_absent (E : Engine) (fz : Z -> Z -> Z) (fq : Q -> Q -> Q)
    (a b : Cell) :
  arith E fz fq a b = None <-> number_of E a = None \/ number_of E b = None.
Proof.
  destruct a as [[i|i|x|s]|], b as [[j|j|y|t]|]; simpl;
    repeat match goal with
           | |- context [string_to_double E ?u] => destruct (string_to_double E u)
           end;
    split; intros H; try discriminate; try reflexivity; auto;
    destruct H; discriminate.
Qed.

Lemma number_of_arith (E : Engine) (fz : Z -> Z -> Z) (fq : Q -> Q -> Q)
    (a b : Cell) :
  number_of E (arith E fz fq a b) = None <-> arith E fz fq a b = None.
Proof.
  destruct a as [[i|i|x|s]|], b as [[j|j|y|t]|]; simpl;
    repeat match goal with
           | |- context [string_to_double E ?u] => destruct (string_to_double E u)
           end;
    split; intros H; try discriminate; reflexivity.
Qed.

(** X18.  The score of a record is absent exactly when one of its three
    values is absent or is a string that is no number.  On doubles it is
    the rounded sum of the rounded difference: it does not decrease when
    energy or sugars grow or fiber shrinks, and for doubles it is
    energy - fiber + sugars itself whenever the difference and the result
    are doubles, as for 100, 5 and 20. *)
Theorem nutrition_score_propagates_absence (E : Engine) :
  (forall energy fiber sugars,
     nutrition_score E energy fiber sugars = None <->
     number_of E energy = None \/ number_of E fiber = None \/
     number_of E sugars = None) /\
  (forall e f s e' f' s' : Q,
     e <= e' -> f' <= f -> s <= s' ->
     exists x x',
       nutrition_score E (Some (VDouble e)) (Some (VDouble f)) (Some (VDouble s))
       = Some (VDouble x) /\
       nutrition_score E (Some (VDouble e')) (Some (VDouble f')) (Some (VDouble s'))
       = Some (VDouble x') /\
       x <= x') /\
  (forall e f s : Q,
     round E e == e -> round E f == f -> round E s == s ->
     round E (e - f) == e - f -> round E (e - f + s) == e - f + s ->
     exists x,
       nutrition_score E (Some (VDouble e)) (Some (VDouble f)) (Some (VDouble s))
       = Some (VDouble x) /\
       x == e - f + s).
Proof.
  split; [|split].
  - intros energy fiber sugars. unfold nutrition_score.
    rewrite arith_absent, number_of_arith, arith_absent. tauto.
  - intros e f s e' f' s' He Hf Hs. do 2 eexists.
    split; [reflexivity|]. split; [reflexivity|].
    unfold double_add, double_sub.
    pose proof (round_monotone E He) as He'.
    pose proof (round_monotone E Hf) as Hf'.
    pose proof (round_monotone E Hs) as Hs'.
    assert (H : round E (round E e - round E f)
                <= round E (round E e' - round E f'))
      by (apply round_monotone; lra).
    apply round_monotone. apply (round_monotone E) in H. lra.
  - intros e f s He Hf Hs Hsub Hadd. eexists. split; [reflexivity|].
    unfold double_add, double_sub.
    assert (Hdiff : round E (round E e - round E f) == e - f).
    { apply Qeq_trans with (round E (e - f)); [|assumption].
      apply round_compat. rewrite He, Hf. reflexivity. }
    assert (Hinner : round E (round E (round E e - round E f)) == e - f).
    { apply Qeq_trans with (round E (e - f)); [|assumption].
      now apply round_compat. }
    apply Qeq_trans with (round E (e - f + s)); [|assumption].
    apply round_compat. rewrite Hinner, Hs. reflexivity.
Qed.

(** ** groupBy and avg *)

Lemma distinct_cells_filter (p : Cell -> bool) (l : list Cell) :
  distinct_cells l -> distinct_cells (filter p l).
Proof.
  induction l as [|c l IH]; simpl; [auto|].
  intros [Hc Hl]. destruct (p c); simpl; [|auto].
  split; [|auto].
  apply Forall_forall. intros c' Hin. apply filter_In in Hin as [Hin _].
  rewrite Forall_forall in Hc. auto.
Qed.

Lemma distinct_is_distinct (l : list Cell) : distinct_cells (distinct l).
Proof.
  induction l as [|c l IH]; simpl; [exact I|].
  split.
  - apply Forall_forall. intros c' Hin. apply filter_In in Hin as [_ Hne].
    now apply negb_true_iff in Hne.
  - now apply distinct_cells_filter.
Qed.

Lemma distinct_incl (l : list Cell) (c : Cell) : In c (distinct l) -> In c l.
Proof.
  revert c. induction l as [|x l IH]; simpl; [tauto|].
  intros c [H|H]; [now left|].
  apply filter_In in H as [H _]. right. now apply IH.
Qed.

Lemma distinct_represents (l : list Cell) (c : Cell) :
  In c l -> exists c', In c' (distinct l) /\ cell_eqb c' c = true.
Proof.
  induction l as [|x l IH]; simpl; [tauto|].
  intros [->|Hin].
  - exists c. split; [now left | apply cell_eqb_refl].
  - destruct (IH Hin) as [c' [Hc' Heq]].
    destruct (cell_eqb x c') eqn:Hx.
    + exists x. split; [now left | eapply cell_eqb_trans; eauto].
    + exists c'. split; [|assumption].
      right. apply filter_In. split; [assumption | now rewrite Hx].
Qed.

(** X19.  The aggregate has one row per main category: the keys of its rows
    are pairwise different, every key is the category of some record, every
    record's category is the key of some row, and the three averages of a
    row are taken over exactly the records whose category equals its key
    (absent categories forming a group of their own). *)
Theorem aggregate_one_row_per_category (E : Engine) (df d : DataFrame) :
  aggregate E df = Ok d ->
  columns d = ["main_category"; "avg_energy"; "avg_sugars"; "avg_fiber"] /\
  distinct_cells (map (fun g => cell_of (schema d) g "main_category") (rows d)) /\
  (forall g, In g (rows d) ->
     exists r, In r (rows df) /\
       cell_of (schema d) g "main_category" = cell_of (schema df) r "main_category") /\
  (forall r, In r (rows df) ->
     exists g, In g (rows d) /\
       cell_eqb (cell_of (schema d) g "main_category")
                (cell_of (schema df) r "main_category") = true) /\
  (forall g, In g (rows d) ->
     let group := filter (fun r => cell_eqb (cell_of (schema d) g "main_category")
                                     (cell_of (schema df) r "main_category"))
                    (rows df) in
     cell_of (schema d) g "avg_energy" = avg E (schema df) "energy_100g" group /\
     cell_of (schema d) g "avg_sugars" = avg E (schema df) "sugars_100g" group /\
     cell_of (schema d) g "avg_fiber" = avg E (schema df) "fiber_100g" group).
Proof.
  unfold aggregate, resolve.
  destruct (field_type "main_category" (schema df)) as [ty|]; [|discriminate].
  cbn [bind].
  destruct (mapM _ _) as [fs|e]; [|discriminate]. cbn [bind].
  intros [= <-]. unfold columns. cbn [schema rows].
  set (key := fun r : Row => cell_of (schema df) r "main_category").
  split; [reflexivity|].
  rewrite map_map. cbn [cell_of fst]. rewrite map_id.
  split; [apply distinct_is_distinct|].
  split; [|split].
  - intros g Hg. apply in_map_iff in Hg as [k [<- Hk]].
    apply distinct_incl, in_map_iff in Hk as [r [<- Hr]].
    exists r. split; [assumption|reflexivity].
  - intros r Hr.
    destruct (distinct_represents (map key (rows df)) (key r)) as [k [Hk Heq]].
    { now apply in_map. }
    eexists. split; [apply in_map_iff; exists k; split; [reflexivity|exact Hk]|].
    exact Heq.
  - intros g Hg. apply in_map_iff in Hg as [k [<- Hk]].
    repeat split.
Qed.

Lemma fold_double_add_nonneg (E : Engine) (xs : list Q) (acc : Q) :
  0 <= acc -> (forall x, In x xs -> 0 <= x) ->
  0 <= fold_left (double_add E) xs acc.
Proof.
  revert acc. induction xs as [|x xs IH]; intros acc Hacc H; simpl; [assumption|].
  apply IH; [|intros y Hy; apply H; now right].
  apply round_nonneg. pose proof (H x (or_introl eq_refl)). lra.
Qed.

Lemma fold_double_add_nonpos (E : Engine) (xs : list Q) (acc : Q) :
  acc <= 0 -> (forall x, In x xs -> x <= 0) ->
  fold_left (double_add E) xs acc <= 0.
Proof.
  revert acc. induction xs as [|x xs IH]; intros acc Hacc H; simpl; [assumption|].
  apply IH; [|intros y Hy; apply H; now right].
  apply round_nonpos. pose proof (H x (or_introl eq_refl)). lra.
Qed.

Lemma double_sum_sign (E : Engine) (xs : list Q) :
  ((forall x, In x xs -> 0 <= x) -> 0 <= double_sum E xs) /\
  ((forall x, In x xs -> x <= 0) -> double_sum E xs <= 0).
Proof.
  unfold double_sum.
  split; intros H;
    [apply fold_double_add_nonneg | apply fold_double_add_nonpos];
    auto; apply Qle_refl.
Qed.

Lemma flat_map_filter {A B : Type} (f : A -> list B) (p : A -> bool) (l : list A) :
  (forall a, p a = false -> f a = []) ->
  flat_map f (filter p l) = flat_map f l.
Proof.
  intros H. induction l as [|a l IH]; simpl; [reflexivity|].
  destruct (p a) eqn:Hp; simpl; [now rewrite IH | now rewrite (H a Hp)].
Qed.

(** X20.  The average of a group ignores the records without a value: it is
    absent exactly when no record of the group has a value, it is the
    average of the records that have one, it is a double, and it is not
    negative (not positive) when no value is; the average of a group of one
    record is that record's value. *)
Theorem avg_ignores_absent_values (E : Engine) (sch : Schema) (column : string)
    (group : list Row) :
  (avg E sch column group = None <->
   forall r, In r group -> number_of E (cell_of sch r column) = None) /\
  avg E sch column group
  = avg E sch column
      (filter (fun r => match number_of E (cell_of sch r column) with
                        | Some _ => true
                        | None => false
                        end) group) /\
  (avg E sch column group = None \/
   exists a, avg E sch column group = Some (VDouble a)) /\
  (forall a, avg E sch column group = Some (VDouble a) ->
     ((forall r v, In r group -> number_of E (cell_of sch r column) = Some v ->
         0 <= v) -> 0 <= a) /\
     ((forall r v, In r group -> number_of E (cell_of sch r column) = Some v ->
         v <= 0) -> a <= 0)) /\
  (forall r v, group = [r] -> number_of E (cell_of sch r column) = Some v ->
     exists a, avg E sch column group = Some (VDouble a) /\ a == v).
Proof.
  unfold avg.
  set (pick := fun r : Row => match number_of E (cell_of sch r column) with
                              | Some q => [q]
                              | None => []
                              end).
  assert (Hin : forall r v, In r group ->
            number_of E (cell_of sch r column) = Some v ->
            In v (flat_map pick group)).
  { intros r v Hr Hv. apply in_flat_map. exists r. split; [assumption|].
    unfold pick. rewrite Hv. now left. }
  assert (Hfrom : forall x, In x (flat_map pick group) ->
            exists r, In r group /\ number_of E (cell_of sch r column) = Some x).
  { intros x Hx. apply in_flat_map in Hx as [r [Hr Hx]]. unfold pick in Hx.
    destruct (number_of E (cell_of sch r column)) as [v|] eqn:Hv; [|contradiction].
    destruct Hx as [<-|[]]. eauto. }
  split; [|split; [|split; [|split]]].
  - destruct (flat_map pick group) as [|x xs] eqn:Hxs.
    + split; [|reflexivity]. intros _ r Hr.
      destruct (number_of E (cell_of sch r column)) as [v|] eqn:Hv; [|reflexivity].
      destruct (Hin r v Hr Hv).
    + split; [discriminate|]. intros H.
      destruct (Hfrom x (or_introl eq_refl)) as [r [Hr Hv]].
      rewrite (H r Hr) in Hv. discriminate.
  - rewrite flat_map_filter; [reflexivity|].
    intros r Hr. unfold pick.
    now destruct (number_of E (cell_of sch r column)).
  - destruct (flat_map pick group); [now left | right; eexists; reflexivity].
  - intros a Ha.
    destruct (flat_map pick group) as [|x xs] eqn:Hxs; [discriminate|].
    injection Ha as <-.
    set (n := inject_Z (Z.of_nat (List.length (x :: xs)))).
    assert (Hn : 0 < n).
    { unfold n. change 0 with (inject_Z 0). rewrite <- Zlt_Qlt.
      simpl. lia. }
    destruct (double_sum_sign E (x :: xs)) as [Hpos Hneg].
    unfold double_div. split; intros H.
    + apply round_nonneg. apply Qle_shift_div_l; [assumption|].
      apply Qle_trans with 0; [lra|]. apply Hpos.
      intros y Hy. destruct (Hfrom y Hy) as [r [Hr Hv]]. eauto.
    + apply round_nonpos. apply Qle_shift_div_r; [assumption|].
      apply Qle_trans with 0; [|lra]. apply Hneg.
      intros y Hy. destruct (Hfrom y Hy) as [r [Hr Hv]]. eauto.
  - intros r v -> Hv. pose proof (number_of_double E _ Hv) as Hdouble.
    simpl. unfold pick. rewrite Hv. simpl.
    eexists. split; [reflexivity|].
    unfold double_div, double_sum, double_add. simpl.
    assert (Hsum : round E (0 + v) == v).
    { apply Qeq_trans with (round E v); [|assumption].
      apply round_compat. ring. }
    apply Qeq_trans with (round E v); [|assumption].
    apply round_compat. rewrite Hsum. change (inject_Z 1) with 1. field.
Qed.

(** ** The script as a whole *)

(** X21.  The script never runs to completion: on every input it raises, and
    when the cleaner and the scan both complete it raises at line 109,
    because [categories_tags] is not among the kept columns. *)
Theorem script_never_completes (E : Engine) (df : DataFrame) :
  (exists e, script E df = Err e) /\
  forall d found, clean E df = Ok d -> detect_outliers E d = Ok found ->
    script E df = Err (AnalysisException "categories_tags").
Proof.
  split; [apply script_always_raises|].
  intros d found Hclean Hscan. unfold script.
  rewrite Hclean. cbn [bind]. rewrite Hscan. cbn [bind].
  now rewrite (main_category_raises_after_clean _ _ Hclean).
Qed.

(** ** The further properties on the example tables *)

Lemma clean_raises_without_quantity_witness :
  has_column spread "quantity" = false /\
  clean reference_engine spread = Err (AnalysisException "quantity").
Proof.
  assert (H : has_column spread "quantity" = false) by reflexivity.
  split; [exact H|].
  exact (clean_raises_without_quantity reference_engine spread H).
Defined.

Lemma clean_retypes_only_quantity_witness :
  clean reference_engine snacks = Ok cleaned_snacks /\
  field_type "quantity" (schema cleaned_snacks) = Some IntegerType /\
  forall name, In name (columns cleaned_snacks) -> name <> "quantity" ->
    field_type name (schema cleaned_snacks) = field_type name (schema snacks).
Proof.
  assert (H : clean reference_engine snacks = Ok cleaned_snacks)
    by (vm_compute; reflexivity).
  split; [exact H|].
  exact (clean_retypes_only_quantity reference_engine snacks H).
Defined.

Lemma clean_keeps_present_values_witness :
  clean reference_engine snacks = Ok cleaned_snacks /\
  In cleaned_crackers (rows cleaned_snacks) /\
  exists r, In r (rows snacks) /\
    forall name, In name (columns cleaned_snacks) -> name <> "quantity" ->
      (forall v, cell_of (schema snacks) r name = Some v ->
         cell_of (schema cleaned_snacks) cleaned_crackers name = Some v) /\
      (In name unfilled_columns ->
         cell_of (schema cleaned_snacks) cleaned_crackers name
         = cell_of (schema snacks) r name).
Proof.
  assert (H1 : clean reference_engine snacks = Ok cleaned_snacks)
    by (vm_compute; reflexivity).
  assert (H2 : In cleaned_crackers (rows cleaned_snacks)) by (vm_compute; auto).
  split; [exact H1|]. split; [exact H2|].
  exact (clean_keeps_present_values reference_engine snacks cleaned_crackers H1 H2).
Defined.

Lemma clean_never_adds_records_witness :
  clean reference_engine snacks = Ok cleaned_snacks /\
  (List.length (rows cleaned_snacks) <= List.length (rows snacks))%nat /\
  (rows cleaned_snacks = [] <-> rows snacks = []).
Proof.
  assert (H : clean reference_engine snacks = Ok cleaned_snacks)
    by (vm_compute; reflexivity).
  split; [exact H|].
  exact (clean_never_adds_records reference_engine snacks H).
Defined.

Lemma cleaned_column_count_witness :
  clean reference_engine snacks = Ok cleaned_snacks /\
  (17 <= List.length (columns cleaned_snacks) <= 21)%nat.
Proof.
  assert (H : clean reference_engine snacks = Ok cleaned_snacks)
    by (vm_compute; reflexivity).
  split; [exact H|].
  exact (cleaned_column_count reference_engine snacks H).
Defined.

Lemma fills_commute_witness :
  forallb (has_column snacks) zero_fill_columns = true /\
  forallb (has_column snacks) text_fill_columns = true /\
  (d <- na_fill (FillNumber 0) zero_fill_columns snacks ;;
   na_fill (FillString "undefined") text_fill_columns d) =
  (d <- na_fill (FillString "undefined") text_fill_columns snacks ;;
   na_fill (FillNumber 0) zero_fill_columns d).
Proof.
  assert (Hz : forallb (has_column snacks) zero_fill_columns = true)
    by reflexivity.
  assert (Hs : forallb (has_column snacks) text_fill_columns = true)
    by reflexivity.
  split; [exact Hz|]. split; [exact Hs|].
  exact (fills_commute 0 "undefined" zero_fill_columns text_fill_columns
           snacks Hz Hs).
Defined.

(** The quantity "150" of the chips casts to 150; one of eleven digits is
    out of range and gives the absent marker. *)
Lemma cast_int_fits_32_bits_witness :
  (forall z, str "150" = Some (VInt z) -> int32 z) /\
  cast_int reference_engine (str "150") = int 150 /\
  cast_int reference_engine (str "15000000000") = null /\
  (cast_int reference_engine (str "150") = None \/
   exists z', cast_int reference_engine (str "150") = Some (VInt z') /\ int32 z').
Proof.
  assert (H : forall z, str "150" = Some (VInt z) -> int32 z)
    by (intros z Hz; discriminate Hz).
  split; [exact H|].
  split; [vm_compute; reflexivity|]. split; [vm_compute; reflexivity|].
  exact (proj1 (@cast_int_fits_32_bits reference_engine (str "150") H)).
Defined.

Lemma scan_of_valueless_column_raises_witness :
  field_type "nutriscore_score" (schema (scores [null; null])) = Some IntegerType /\
  is_numeric IntegerType = true /\
  (forall r, In r (rows (scores [null; null])) ->
     cell_of (schema (scores [null; null])) r "nutriscore_score" = None) /\
  outliers_of reference_engine (scores [null; null]) "nutriscore_score"
  = Err IndexError.
Proof.
  assert (H1 : field_type "nutriscore_score" (schema (scores [null; null]))
               = Some IntegerType) by reflexivity.
  assert (H2 : is_numeric IntegerType = true) by reflexivity.
  assert (H3 : forall r, In r (rows (scores [null; null])) ->
                 cell_of (schema (scores [null; null])) r "nutriscore_score"
                 = None).
  { intros r [<-|[<-|[]]]; reflexivity. }
  split; [exact H1|]. split; [exact H2|]. split; [exact H3|].
  exact (scan_of_valueless_column_raises reference_engine
           (scores [null; null]) "nutriscore_score" H1 H2 H3).
Defined.

(** No product of this table has a Nutri-Score: the scan raises at its third
    column, after it has stored and printed the outliers of the first two. *)
Lemma scan_keeps_the_entries_before_the_failure :
  map fst (entries (fst (scan reference_engine
                           (cleaned reference_engine unscored_snacks))))
  = ["quantity"; "serving_quantity"] /\
  map fst (printed (fst (scan reference_engine
                           (cleaned reference_engine unscored_snacks))))
  = ["quantity"; "serving_quantity"] /\
  snd (scan reference_engine (cleaned reference_engine unscored_snacks))
  = Some IndexError /\
  detect_outliers reference_engine (cleaned reference_engine unscored_snacks)
  = Err IndexError.
Proof.
  repeat split; vm_compute; reflexivity.
Qed.

Lemma empty_table_makes_the_scan_raise_witness :
  clean reference_engine no_products = Ok (cleaned reference_engine no_products) /\
  ((exists o, outliers_of reference_engine
                (cleaned reference_engine no_products) "quantity" = Ok o)
   <-> rows no_products <> []) /\
  (rows no_products = [] ->
     detect_outliers reference_engine (cleaned reference_engine no_products)
     = Err IndexError /\
     script reference_engine no_products = Err IndexError).
Proof.
  assert (H : clean reference_engine no_products
              = Ok (cleaned reference_engine no_products))
    by (vm_compute; reflexivity).
  split; [exact H|].
  exact (empty_table_makes_the_scan_raise reference_engine no_products H).
Defined.

Lemma values_between_quartiles_are_not_outliers_witness :
  outliers_of reference_engine spread "nutriscore_score" = Ok (scores [int 100]) /\
  number_of reference_engine (cell_of (schema spread) [int 3] "nutriscore_score")
  = Some 3 /\
  first_quartile reference_engine spread "nutriscore_score" <= 3 /\
  3 <= third_quartile reference_engine spread "nutriscore_score" /\
  ~ In [int 3] (rows (scores [int 100])).
Proof.
  assert (H1 : outliers_of reference_engine spread "nutriscore_score"
               = Ok (scores [int 100])) by (vm_compute; reflexivity).
  assert (H2 : number_of reference_engine
                 (cell_of (schema spread) [int 3] "nutriscore_score") = Some 3)
    by reflexivity.
  assert (H3 : first_quartile reference_engine spread "nutriscore_score" <= 3)
    by (vm_compute; discriminate).
  assert (H4 : 3 <= third_quartile reference_engine spread "nutriscore_score")
    by (vm_compute; discriminate).
  split; [exact H1|]. split; [exact H2|]. split; [exact H3|]. split; [exact H4|].
  exact (@values_between_quartiles_are_not_outliers reference_engine spread _
           "nutriscore_score" [int 3] 3 H1 H2 H3 H4).
Defined.

Lemma aggregate_one_row_per_category_witness :
  aggregate reference_engine categorised_snacks = Ok snack_stats /\
  columns snack_stats = ["main_category"; "avg_energy"; "avg_sugars"; "avg_fiber"] /\
  distinct_cells
    (map (fun g => cell_of (schema snack_stats) g "main_category")
       (rows snack_stats)).
Proof.
  assert (H : aggregate reference_engine categorised_snacks = Ok snack_stats)
    by (vm_compute; reflexivity).
  split; [exact H|].
  pose proof (aggregate_one_row_per_category reference_engine categorised_snacks H)
    as [Hcolumns [Hkeys _]].
  split; assumption.
Defined.
